(** * Map state synchronisation of the property-map UI

    A shallow embedding of the client-side state logic of the two map
    components of the repository:

    - [Leaflet]: the [PropertyMap] component (react-leaflet): bounds
      recomputation from the property set, the debounced property-marker
      fetch, the viewport GIS fetch, the boundary fetches and the rendering
      gate of fetched GIS layers;
    - [Google]: the [PropertyGoogleMap] component: marker selection, the
      emirates/areas display toggles, the GIS layer toggle and the
      [loadGisLayers] pass over the layer types.

    React state is modelled by records, hooks by explicit state passing,
    [setTimeout] by a timer queue over a millisecond clock, and a pending
    service call by an entry of an in-flight table that a later event
    settles with a resolved value or a rejection. *)

From Stdlib Require Import QArith Qminmax.
From stdpp Require Import gmap strings list.

Local Open Scope string_scope.
Local Open Scope list_scope.

(** ** JavaScript values *)

Module JS.

(** The dynamically typed values that reach the guards of the components.
    A non-NaN number is a rational: the code only compares numbers and takes
    [Math.min]/[Math.max] of them, which is exact.  The two infinities, which
    also pass the [typeof]/[isNaN] guards, are outside this model. *)
Inductive value :=
| VUndefined
| VNull
| VNaN
| VNum (q : Q)
| VStr (s : string).

(** [typeof v === 'number'] *)
Definition typeof_number (v : value) : bool :=
  match v with
  | VNaN | VNum _ => true
  | _ => false
  end.

(** [isNaN(v)] on a value whose [typeof] is ['number'] *)
Definition isNaN (v : value) : bool :=
  match v with
  | VNum _ => false
  | _ => true
  end.

(** truthiness, as tested by [&&], [||] and [if] *)
Definition truthy (v : value) : bool :=
  match v with
  | VUndefined | VNull | VNaN => false
  | VNum q => negb (Qeq_bool q 0)
  | VStr s => negb (String.eqb s "")
  end.

(** [a === b] *)
Definition strict_eq (a b : value) : bool :=
  match a, b with
  | VUndefined, VUndefined => true
  | VNull, VNull => true
  | VNum p, VNum q => Qeq_bool p q
  | VStr s, VStr t => String.eqb s t
  | _, _ => false
  end.

(** An [Error] object; [message] may be the empty string. *)
Record error := Error { message : string }.

(** [s || dflt] on strings *)
Definition or_default (s dflt : string) : string :=
  if String.eqb s "" then dflt else s.

(** The way a promise settles. *)
Inductive outcome (A : Type) :=
| Resolved (a : A)
| Rejected (e : error).
Arguments Resolved {A} a.
Arguments Rejected {A} e.

(** [Math.max] and [Math.min] on two non-NaN numbers *)
Definition Math_max (a b : Q) : Q := Qmax a b.
Definition Math_min (a b : Q) : Q := Qmin a b.

(** [arr.includes(x)] on an array of strings *)
Definition includes (arr : list string) (x : string) : bool :=
  existsb (String.eqb x) arr.

End JS.

Import JS.

(** ** The Leaflet map component *)

Module Leaflet.

(** *** Data *)

Record Location := { lat : value; lng : value }.

(** A property record; [location] is absent on some API rows. *)
Record Property := {
  id : value;
  location : option Location;
}.

(** [propertyMarkers]: [properties] is [None] when the field is missing or
    is not an array; an array element is [None] when it is null. *)
Record PropertyMarkers := {
  properties : option (list (option Property));
}.

(** [[south, west], [north, east]] *)
Definition Bounds : Type := (Q * Q) * (Q * Q).

(** [{south, west, north, east}], the object sent to the services *)
Record BBox := { south : Q; west : Q; north : Q; east : Q }.

(** *** The bounds-recompute effect *)

(** [property?.location?.lat] *)
Definition get_lat (p : option Property) : value :=
  match p with
  | Some {| location := Some l |} => lat l
  | _ => VUndefined
  end.

(** [property?.location?.lng] *)
Definition get_lng (p : option Property) : value :=
  match p with
  | Some {| location := Some l |} => lng l
  | _ => VUndefined
  end.

(** The guard of the loop body: both coordinates are numbers and not NaN. *)
Definition valid_location (p : option Property) : bool :=
  typeof_number (get_lat p) && typeof_number (get_lng p)
  && negb (isNaN (get_lat p)) && negb (isNaN (get_lng p)).

(** The five local variables of the effect. *)
Record Extent := {
  x_north : Q;
  x_south : Q;
  x_east : Q;
  x_west : Q;
  validLocationsCount : nat;
}.

Definition extent0 : Extent :=
  {| x_north := (-(90))%Q; x_south := 90%Q; x_east := (-(180))%Q; x_west := 180%Q;
     validLocationsCount := 0 |}.

(** One iteration of the [forEach]. *)
Definition extend (acc : Extent) (p : option Property) : Extent :=
  if valid_location p then
    match get_lat p, get_lng p with
    | VNum la, VNum ln =>
        {| x_north := Math_max (x_north acc) la;
           x_south := Math_min (x_south acc) la;
           x_east := Math_max (x_east acc) ln;
           x_west := Math_min (x_west acc) ln;
           validLocationsCount := S (validLocationsCount acc) |}
    | _, _ => acc
    end
  else acc.

Definition scan (ps : list (option Property)) : Extent :=
  fold_left extend ps extent0.

(** The value the effect passes to [setMapBounds], if it calls it;
    [mapBounds] is the current state, [pm] the current [propertyMarkers]. *)
Definition recompute (pm : option PropertyMarkers) (mapBounds : option Bounds)
  : option Bounds :=
  match pm with
  | Some {| properties := Some ps |} =>
      if (length ps =? 0)%nat then None
      else match mapBounds with
           | Some _ => None
           | None =>
               let e := scan ps in
               if (0 <? validLocationsCount e)%nat
               then Some ((x_south e, x_west e), (x_north e, x_east e))
               else None
           end
  | _ => None
  end.

(** The coordinates of the properties that pass the guard. *)
Definition coords (ps : list (option Property)) : list (Q * Q) :=
  omap (fun p => match get_lat p, get_lng p with
                 | VNum la, VNum ln => Some (la, ln)
                 | _, _ => None
                 end) ps.

(** One loop iteration on a pair of valid coordinates. *)
Definition extend_by (acc : Extent) (c : Q * Q) : Extent :=
  {| x_north := Math_max (x_north acc) (fst c);
     x_south := Math_min (x_south acc) (fst c);
     x_east := Math_max (x_east acc) (snd c);
     x_west := Math_min (x_west acc) (snd c);
     validLocationsCount := S (validLocationsCount acc) |}.

(** [m] is a least (greatest) element of [xs], up to numeric equality. *)
Definition is_min (m : Q) (xs : list Q) : Prop :=
  (exists x, In x xs /\ (x == m)%Q) /\ forall x, In x xs -> (m <= x)%Q.
Definition is_max (m : Q) (xs : list Q) : Prop :=
  (exists x, In x xs /\ (x == m)%Q) /\ forall x, In x xs -> (x <= m)%Q.

(** [b] is the bounding box of the points [cs]. *)
Definition bounding_box (cs : list (Q * Q)) (b : Bounds) : Prop :=
  is_min (fst (fst b)) (map fst cs) /\ is_min (snd (fst b)) (map snd cs) /\
  is_max (fst (snd b)) (map fst cs) /\ is_max (snd (snd b)) (map snd cs).

(** Latitudes within [-90, 90] and longitudes within [-180, 180]. *)
Definition in_range (c : Q * Q) : Prop :=
  (-(90) <= fst c <= 90)%Q /\ (-(180) <= snd c <= 180)%Q.


(** *** Component state *)

(** A GeoJSON feature; only its identity matters here. *)
Definition Feature : Type := nat.

(** One entry of [gisLayers.layers]; [features] is [None] when the field is
    missing or is not an array. *)
Record GisLayer := {
  layer_type : string;
  features : option (list Feature);
}.

(** What a service call resolves with, stored as it comes. *)
Inductive data :=
| DNull
| DBool (b : bool)
| DFeatureCollection (fs : list Feature)
| DLayers (ls : list GisLayer)
| DPropertyGis (gisId : string) (hasParcelData : bool).

(** The [useState] cells of the component. *)
Record React := {
  mapBounds : option Bounds;
  gisLayers : data;
  gisLoading : bool;
  gisError : option string;
  gisInitialized : bool;
  propertyGisData : data;
  emiratesBoundaries : data;
  areasBoundaries : data;
  showEmirates : bool;
  showAreas : bool;
  currentEmirate : string;
}.

(** Props and context values read by the effects. *)
Record Inputs := {
  enabledGisLayers : option (list string);
  propertyMarkers : option PropertyMarkers;
  propertyDetails : option Property;
  loadPropertyMarkers : bool;   (* the context provides the function *)
}.

(** [JSON.stringify(bounds)] of the four-field object. *)
Inductive json := JSON_stringify (b : BBox).

(** The argument of [loadPropertyMarkers]. *)
Record MarkerParams := { bounds : json; limit : Z }.

(** The calls of [gisService]. *)
Inductive request :=
| Initialize
| GetEmiratesBoundaries
| GetAreasBoundaries (emirate : string)
| GetLayers (b : BBox) (enabled : list string)
| GetPropertyGisData (pid : value).

(** The two [setTimeout] callbacks. *)
Inductive timer_action :=
| CallLoadPropertyMarkers (p : MarkerParams)
| CallGetLayers (b : BBox) (enabled : list string).

Record timer := { tid : nat; due : nat; action : timer_action }.

(** The host: clock (ms), timer queue, pending service calls and logs. *)
Record Host := {
  now : nat;
  next_id : nat;
  timers : list timer;
  marker_cleanup : option nat;          (* the cleanup closure of the marker effect *)
  inflight : list (nat * request);
  marker_calls : list (nat * MarkerParams);   (* time, argument *)
  service_calls : list (nat * request);       (* time, call *)
  console : list (string * error);      (* console.error(label, error) *)
  unhandled : list error;               (* unhandled promise rejections *)
}.

Record State := { react : React; inputs : Inputs; host : Host }.

Definition upd_react (f : React -> React) (st : State) : State :=
  {| react := f (react st); inputs := inputs st; host := host st |}.
Definition upd_inputs (f : Inputs -> Inputs) (st : State) : State :=
  {| react := react st; inputs := f (inputs st); host := host st |}.
Definition upd_host (f : Host -> Host) (st : State) : State :=
  {| react := react st; inputs := inputs st; host := f (host st) |}.

Definition setMapBounds (v : option Bounds) : State -> State :=
  upd_react (fun r =>
    {| mapBounds := v; gisLayers := gisLayers r; gisLoading := gisLoading r;
       gisError := gisError r; gisInitialized := gisInitialized r;
       propertyGisData := propertyGisData r;
       emiratesBoundaries := emiratesBoundaries r;
       areasBoundaries := areasBoundaries r; showEmirates := showEmirates r;
       showAreas := showAreas r; currentEmirate := currentEmirate r |}).
Definition setGisLayers (v : data) : State -> State :=
  upd_react (fun r =>
    {| mapBounds := mapBounds r; gisLayers := v; gisLoading := gisLoading r;
       gisError := gisError r; gisInitialized := gisInitialized r;
       propertyGisData := propertyGisData r;
       emiratesBoundaries := emiratesBoundaries r;
       areasBoundaries := areasBoundaries r; showEmirates := showEmirates r;
       showAreas := showAreas r; currentEmirate := currentEmirate r |}).
Definition setGisLoading (v : bool) : State -> State :=
  upd_react (fun r =>
    {| mapBounds := mapBounds r; gisLayers := gisLayers r; gisLoading := v;
       gisError := gisError r; gisInitialized := gisInitialized r;
       propertyGisData := propertyGisData r;
       emiratesBoundaries := emiratesBoundaries r;
       areasBoundaries := areasBoundaries r; showEmirates := showEmirates r;
       showAreas := showAreas r; currentEmirate := currentEmirate r |}).
Definition setGisError (v : option string) : State -> State :=
  upd_react (fun r =>
    {| mapBounds := mapBounds r; gisLayers := gisLayers r;
       gisLoading := gisLoading r; gisError := v;
       gisInitialized := gisInitialized r;
       propertyGisData := propertyGisData r;
       emiratesBoundaries := emiratesBoundaries r;
       areasBoundaries := areasBoundaries r; showEmirates := showEmirates r;
       showAreas := showAreas r; currentEmirate := currentEmirate r |}).
Definition setGisInitialized (v : bool) : State -> State :=
  upd_react (fun r =>
    {| mapBounds := mapBounds r; gisLayers := gisLayers r;
       gisLoading := gisLoading r; gisError := gisError r;
       gisInitialized := v; propertyGisData := propertyGisData r;
       emiratesBoundaries := emiratesBoundaries r;
       areasBoundaries := areasBoundaries r; showEmirates := showEmirates r;
       showAreas := showAreas r; currentEmirate := currentEmirate r |}).
Definition setPropertyGisData (v : data) : State -> State :=
  upd_react (fun r =>
    {| mapBounds := mapBounds r; gisLayers := gisLayers r;
       gisLoading := gisLoading r; gisError := gisError r;
       gisInitialized := gisInitialized r; propertyGisData := v;
       emiratesBoundaries := emiratesBoundaries r;
       areasBoundaries := areasBoundaries r; showEmirates := showEmirates r;
       showAreas := showAreas r; currentEmirate := currentEmirate r |}).
Definition setEmiratesBoundaries (v : data) : State -> State :=
  upd_react (fun r =>
    {| mapBounds := mapBounds r; gisLayers := gisLayers r;
       gisLoading := gisLoading r; gisError := gisError r;
       gisInitialized := gisInitialized r;
       propertyGisData := propertyGisData r; emiratesBoundaries := v;
       areasBoundaries := areasBoundaries r; showEmirates := showEmirates r;
       showAreas := showAreas r; currentEmirate := currentEmirate r |}).
Definition setAreasBoundaries (v : data) : State -> State :=
  upd_react (fun r =>
    {| mapBounds := mapBounds r; gisLayers := gisLayers r;
       gisLoading := gisLoading r; gisError := gisError r;
       gisInitialized := gisInitialized r;
       propertyGisData := propertyGisData r;
       emiratesBoundaries := emiratesBoundaries r; areasBoundaries := v;
       showEmirates := showEmirates r; showAreas := showAreas r;
       currentEmirate := currentEmirate r |}).
Definition setShowEmirates (v : bool) : State -> State :=
  upd_react (fun r =>
    {| mapBounds := mapBounds r; gisLayers := gisLayers r;
       gisLoading := gisLoading r; gisError := gisError r;
       gisInitialized := gisInitialized r;
       propertyGisData := propertyGisData r;
       emiratesBoundaries := emiratesBoundaries r;
       areasBoundaries := areasBoundaries r; showEmirates := v;
       showAreas := showAreas r; currentEmirate := currentEmirate r |}).
Definition setShowAreas (v : bool) : State -> State :=
  upd_react (fun r =>
    {| mapBounds := mapBounds r; gisLayers := gisLayers r;
       gisLoading := gisLoading r; gisError := gisError r;
       gisInitialized := gisInitialized r;
       propertyGisData := propertyGisData r;
       emiratesBoundaries := emiratesBoundaries r;
       areasBoundaries := areasBoundaries r; showEmirates := showEmirates r;
       showAreas := v; currentEmirate := currentEmirate r |}).
Definition setCurrentEmirate (v : string) : State -> State :=
  upd_react (fun r =>
    {| mapBounds := mapBounds r; gisLayers := gisLayers r;
       gisLoading := gisLoading r; gisError := gisError r;
       gisInitialized := gisInitialized r;
       propertyGisData := propertyGisData r;
       emiratesBoundaries := emiratesBoundaries r;
       areasBoundaries := areasBoundaries r; showEmirates := showEmirates r;
       showAreas := showAreas r; currentEmirate := v |}).

(** *** Host operations *)

(** [console.error(label, e)] *)
Definition console_error (label : string) (e : error) : State -> State :=
  upd_host (fun h =>
    {| now := now h; next_id := next_id h; timers := timers h;
       marker_cleanup := marker_cleanup h; inflight := inflight h;
       marker_calls := marker_calls h; service_calls := service_calls h;
       console := console h ++ [(label, e)]; unhandled := unhandled h |}).

(** A promise rejected with [e] that has no handler. *)
Definition unhandled_rejection (e : error) : State -> State :=
  upd_host (fun h =>
    {| now := now h; next_id := next_id h; timers := timers h;
       marker_cleanup := marker_cleanup h; inflight := inflight h;
       marker_calls := marker_calls h; service_calls := service_calls h;
       console := console h; unhandled := unhandled h ++ [e] |}).

(** [setTimeout(a, delay)]; the new timer's id is the old [next_id]. *)
Definition setTimeout (a : timer_action) (delay : nat) : State -> State :=
  upd_host (fun h =>
    {| now := now h; next_id := S (next_id h);
       timers := timers h ++ [{| tid := next_id h; due := now h + delay;
                                 action := a |}];
       marker_cleanup := marker_cleanup h; inflight := inflight h;
       marker_calls := marker_calls h; service_calls := service_calls h;
       console := console h; unhandled := unhandled h |}).

(** [clearTimeout(i)] *)
Definition clearTimeout (i : nat) : State -> State :=
  upd_host (fun h =>
    {| now := now h; next_id := next_id h;
       timers := filter (fun t => tid t <> i) (timers h);
       marker_cleanup := marker_cleanup h; inflight := inflight h;
       marker_calls := marker_calls h; service_calls := service_calls h;
       console := console h; unhandled := unhandled h |}).

Definition set_marker_cleanup (c : option nat) : State -> State :=
  upd_host (fun h =>
    {| now := now h; next_id := next_id h; timers := timers h;
       marker_cleanup := c; inflight := inflight h;
       marker_calls := marker_calls h; service_calls := service_calls h;
       console := console h; unhandled := unhandled h |}).

(** A call of [gisService]: the request stays in flight until it settles. *)
Definition call_service (r : request) : State -> State :=
  upd_host (fun h =>
    {| now := now h; next_id := S (next_id h); timers := timers h;
       marker_cleanup := marker_cleanup h;
       inflight := inflight h ++ [(next_id h, r)];
       marker_calls := marker_calls h;
       service_calls := service_calls h ++ [(now h, r)];
       console := console h; unhandled := unhandled h |}).

(** A call of the context's [loadPropertyMarkers]; what the context does
    with the response is outside this component. *)
Definition call_loadPropertyMarkers (p : MarkerParams) : State -> State :=
  upd_host (fun h =>
    {| now := now h; next_id := next_id h; timers := timers h;
       marker_cleanup := marker_cleanup h; inflight := inflight h;
       marker_calls := marker_calls h ++ [(now h, p)];
       service_calls := service_calls h;
       console := console h; unhandled := unhandled h |}).

(** *** Effects *)

(** [{south: mapBounds[0][0], west: mapBounds[0][1], north: mapBounds[1][0],
    east: mapBounds[1][1]}] *)
Definition bbox_of (b : Bounds) : BBox :=
  {| south := fst (fst b); west := snd (fst b);
     north := fst (snd b); east := snd (snd b) |}.

Definition marker_params (b : Bounds) : MarkerParams :=
  {| bounds := JSON_stringify (bbox_of b); limit := 100 |}.

(** "Load property markers when map bounds change": the cleanup of the
    previous run clears its timer, then a new 300 ms timer is set. *)
Definition marker_effect (st : State) : State :=
  let st := match marker_cleanup (host st) with
            | Some i => clearTimeout i st
            | None => st
            end in
  match mapBounds (react st) with
  | Some b =>
      if loadPropertyMarkers (inputs st) then
        let i := next_id (host st) in
        set_marker_cleanup (Some i)
          (setTimeout (CallLoadPropertyMarkers (marker_params b)) 300 st)
      else set_marker_cleanup None st
  | None => set_marker_cleanup None st
  end.

(** "Fetch GIS data when map bounds change".  [fetchGisData] is an async
    function: the function it returns after [setTimeout] is the value of its
    promise, which the effect drops, so the effect has no cleanup.  The
    [try] block holds nothing that throws; the [await] sits in the timer
    callback, outside it. *)
Definition gis_effect (st : State) : State :=
  match mapBounds (react st), enabledGisLayers (inputs st) with
  | Some b, Some ls =>
      if (length ls =? 0)%nat || negb (gisInitialized (react st)) then st
      else
        setTimeout (CallGetLayers (bbox_of b) ls) 500
          (setGisError None (setGisLoading true st))
  | _, _ => st
  end.

(** "Fetch emirates boundaries" *)
Definition emirates_effect (st : State) : State :=
  if negb (gisInitialized (react st)) || negb (showEmirates (react st))
  then st
  else call_service GetEmiratesBoundaries st.

(** "Fetch areas boundaries" *)
Definition areas_effect (st : State) : State :=
  if negb (gisInitialized (react st)) || negb (showAreas (react st))
  then st
  else call_service (GetAreasBoundaries (currentEmirate (react st))) st.

(** "Fetch property-specific GIS data" *)
Definition property_gis_effect (st : State) : State :=
  match propertyDetails (inputs st) with
  | Some pd =>
      if negb (truthy (id pd)) || negb (gisInitialized (react st)) then st
      else call_service (GetPropertyGisData (id pd)) st
  | None => st
  end.

(** "Initialize GIS service" *)
Definition initialize_effect (st : State) : State :=
  call_service Initialize st.

(** The effects that depend on [mapBounds], in source order, once it holds
    a value (the recompute effect, which also depends on it, returns at its
    guard then). *)
Definition bounds_effects (st : State) : State :=
  gis_effect (marker_effect st).

(** "Update map bounds when property markers change" *)
Definition recompute_effect (st : State) : State :=
  match recompute (propertyMarkers (inputs st)) (mapBounds (react st)) with
  | Some b => bounds_effects (setMapBounds (Some b) st)
  | None => st
  end.

(** The effects that depend on [gisInitialized], in source order. *)
Definition initialized_effects (st : State) : State :=
  property_gis_effect (gis_effect (areas_effect (emirates_effect st))).

(** *** Continuations of the service calls *)

(** What runs when the call [r] settles with [o]. *)
Definition continue (r : request) (o : outcome data) (st : State) : State :=
  match r, o with
  | Initialize, Resolved _ =>
      if gisInitialized (react st) then st
      else initialized_effects (setGisInitialized true st)
  | Initialize, Rejected e =>
      setGisError
        (Some "GIS API initialization failed. Some features may be limited.")
        (console_error "Failed to initialize GIS service:" e st)
  | GetEmiratesBoundaries, Resolved d => setEmiratesBoundaries d st
  | GetEmiratesBoundaries, Rejected e =>
      setGisError (Some "Failed to load emirates boundaries")
        (console_error "Error fetching emirates boundaries:" e st)
  | GetAreasBoundaries em, Resolved d => setAreasBoundaries d st
  | GetAreasBoundaries em, Rejected e =>
      setGisError
        (Some (String.append "Failed to load area boundaries for " em))
        (console_error
           (String.append "Error fetching area boundaries for "
              (String.append em ":")) e st)
  | GetLayers _ _, Resolved d => setGisLoading false (setGisLayers d st)
  | GetLayers _ _, Rejected e => unhandled_rejection e st
  | GetPropertyGisData _, Resolved d => setPropertyGisData d st
  | GetPropertyGisData _, Rejected e =>
      setPropertyGisData DNull
        (console_error "Error fetching property GIS data:" e st)
  end.

(** *** Events *)

Inductive event :=
| Mount
| SetPropertyMarkers (pm : option PropertyMarkers)   (* context *)
| SetPropertyDetails (pd : option Property)          (* context *)
| SetLoadPropertyMarkers (present : bool)            (* context *)
| SetEnabledGisLayers (ls : option (list string))    (* prop *)
| SetMapBounds (b : Bounds)                          (* the state setter *)
| ToggleEmirates (show : bool)                       (* settings panel *)
| ToggleAreas (show : bool)                          (* settings panel *)
| EmirateChange (em : string)                        (* settings panel *)
| ShowAreasForEmirate (em : string)                  (* popup button *)
| Tick                                               (* 1 ms passes *)
| Settle (rid : nat) (o : outcome data).             (* a call settles *)

Definition set_propertyMarkers (pm : option PropertyMarkers) : State -> State :=
  upd_inputs (fun i =>
    {| enabledGisLayers := enabledGisLayers i; propertyMarkers := pm;
       propertyDetails := propertyDetails i;
       loadPropertyMarkers := loadPropertyMarkers i |}).
Definition set_propertyDetails (pd : option Property) : State -> State :=
  upd_inputs (fun i =>
    {| enabledGisLayers := enabledGisLayers i;
       propertyMarkers := propertyMarkers i; propertyDetails := pd;
       loadPropertyMarkers := loadPropertyMarkers i |}).
Definition set_loadPropertyMarkers (b : bool) : State -> State :=
  upd_inputs (fun i =>
    {| enabledGisLayers := enabledGisLayers i;
       propertyMarkers := propertyMarkers i;
       propertyDetails := propertyDetails i; loadPropertyMarkers := b |}).
Definition set_enabledGisLayers (ls : option (list string)) : State -> State :=
  upd_inputs (fun i =>
    {| enabledGisLayers := ls; propertyMarkers := propertyMarkers i;
       propertyDetails := propertyDetails i;
       loadPropertyMarkers := loadPropertyMarkers i |}).

(** Run one timer callback. *)
Definition fire (t : timer) (st : State) : State :=
  match action t with
  | CallLoadPropertyMarkers p => call_loadPropertyMarkers p st
  | CallGetLayers b ls => call_service (GetLayers b ls) st
  end.

(** One millisecond passes: the timers that fall due run in the order they
    were set. *)
Definition tick (st : State) : State :=
  let t' := S (now (host st)) in
  let due_now := filter (fun t => due t = t') (timers (host st)) in
  let st := upd_host (fun h =>
    {| now := t'; next_id := next_id h;
       timers := filter (fun t => due t <> t') (timers h);
       marker_cleanup := marker_cleanup h; inflight := inflight h;
       marker_calls := marker_calls h; service_calls := service_calls h;
       console := console h; unhandled := unhandled h |}) st in
  fold_left (fun s t => fire t s) due_now st.

(** The pending call with id [rid], if any. *)
Definition pending (rid : nat) (st : State) : option request :=
  snd <$> find (fun p => Nat.eqb (fst p) rid) (inflight (host st)).

Definition remove_inflight (rid : nat) : State -> State :=
  upd_host (fun h =>
    {| now := now h; next_id := next_id h; timers := timers h;
       marker_cleanup := marker_cleanup h;
       inflight := filter (fun p => fst p <> rid) (inflight h);
       marker_calls := marker_calls h; service_calls := service_calls h;
       console := console h; unhandled := unhandled h |}).

Definition step (e : event) (st : State) : State :=
  match e with
  | Mount =>
      (* every effect runs against the first render; the bounds the
         recompute effect may set are seen by the others at the next one *)
      recompute_effect (property_gis_effect (gis_effect (marker_effect
        (areas_effect (emirates_effect (initialize_effect st))))))
  | SetPropertyMarkers pm => recompute_effect (set_propertyMarkers pm st)
  | SetPropertyDetails pd => property_gis_effect (set_propertyDetails pd st)
  | SetLoadPropertyMarkers b =>
      if Bool.eqb b (loadPropertyMarkers (inputs st)) then st
      else marker_effect (set_loadPropertyMarkers b st)
  | SetEnabledGisLayers ls => gis_effect (set_enabledGisLayers ls st)
  | SetMapBounds b => bounds_effects (setMapBounds (Some b) st)
  | ToggleEmirates show =>
      if Bool.eqb show (showEmirates (react st)) then st
      else emirates_effect (setShowEmirates show st)
  | ToggleAreas show =>
      if Bool.eqb show (showAreas (react st)) then st
      else areas_effect (setShowAreas show st)
  | EmirateChange em =>
      if String.eqb em (currentEmirate (react st)) then st
      else areas_effect (setCurrentEmirate em st)
  | ShowAreasForEmirate em =>
      if String.eqb em (currentEmirate (react st)) && showAreas (react st)
      then st
      else areas_effect (setShowAreas true (setCurrentEmirate em st))
  | Tick => tick st
  | Settle rid o =>
      match pending rid st with
      | Some r => continue r o (remove_inflight rid st)
      | None => st
      end
  end.

Definition run (evs : list event) (st : State) : State :=
  fold_left (fun s e => step e s) evs st.

(** The component before it mounts, for given props and context values. *)
Definition initial (i : Inputs) : State :=
  {| react := {| mapBounds := None; gisLayers := DNull; gisLoading := false;
                 gisError := None; gisInitialized := false;
                 propertyGisData := DNull; emiratesBoundaries := DNull;
                 areasBoundaries := DNull; showEmirates := false;
                 showAreas := false; currentEmirate := "Dubai" |};
     inputs := i;
     host := {| now := 0; next_id := 0; timers := []; marker_cleanup := None;
                inflight := []; marker_calls := []; service_calls := [];
                console := []; unhandled := [] |} |}.

(** *** Rendering of the fetched GIS layers *)

(** The types of the [GeoJSON] elements the render emits for [gisLayers]
    (none when the [enabledGisLayers] prop is null: [includes] throws). *)
Definition rendered_gis_layers (st : State) : list string :=
  match gisLayers (react st), enabledGisLayers (inputs st) with
  | DLayers ls, Some enabled =>
      omap (fun l =>
              match features l with
              | Some (_ :: _) =>
                  if includes enabled (layer_type l)
                  then Some (layer_type l) else None
              | _ => None
              end) ls
  | _, _ => []
  end.

(** [onToggleLayer] of the settings panel: the list handed to
    [onSelectProperty(null, newLayers)]. *)
Definition onToggleLayer (enabled : list string) (layer : string) : list string :=
  if includes enabled layer
  then filter (fun l => l <> layer) enabled
  else enabled ++ [layer].

(** [handleMarkerClick]: the argument of [selectProperty], if it is called. *)
Definition handleMarkerClick (propertyId : value) (selectProperty : bool)
  : option value :=
  if truthy propertyId && selectProperty then Some propertyId else None.

(** *** Observations used by the properties *)

Definition is_marker_timer (t : timer) : bool :=
  match action t with
  | CallLoadPropertyMarkers _ => true
  | CallGetLayers _ _ => false
  end.

(** The pending timers of the marker effect. *)
Definition marker_timers (st : State) : list timer :=
  List.filter is_marker_timer (timers (host st)).

Definition is_GetLayers (c : nat * request) : bool :=
  match snd c with
  | GetLayers _ _ => true
  | _ => false
  end.

(** The viewport GIS fetches issued so far, with their times. *)
Definition layer_fetches (st : State) : list (nat * request) :=
  List.filter is_GetLayers (service_calls (host st)).

(** Every pending marker timer is the one the effect's cleanup clears, and
    it carries the parameters of the current [mapBounds]. *)
Definition marker_timer_current (st : State) : Prop :=
  forall t, In t (marker_timers st) ->
    marker_cleanup (host st) = Some (tid t) /\
    exists b, mapBounds (react st) = Some b /\
              action t = CallLoadPropertyMarkers (marker_params b).

(** Every pending marker timer is the one the effect's cleanup clears. *)
Definition marker_timer_tracked (st : State) : Prop :=
  forall t, In t (marker_timers st) ->
    marker_cleanup (host st) = Some (tid t).

(** The calls in flight after [st'] extend those of [st]. *)
Definition extends (st st' : State) : Prop :=
  exists extra, inflight (host st') = (inflight (host st) ++ extra)%list.

(** [st'] has no marker timer that [st] lacks, and the same cleanup and
    bounds. *)
Definition marker_view_le (st st' : State) : Prop :=
  (forall t, In t (marker_timers st') -> In t (marker_timers st)) /\
  marker_cleanup (host st') = marker_cleanup (host st) /\
  mapBounds (react st') = mapBounds (react st).

(** No bounds-based fetch was issued between [st] and [st']. *)
Definition no_fetch (st st' : State) : Prop :=
  marker_calls (host st') = marker_calls (host st) /\
  layer_fetches st' = layer_fetches st.


End Leaflet.

(** ** The Google map component *)

Module Google.

(** *** Data *)

Record Property := {
  id : value;
  lat : value;
  lng : value;
  title : string;
}.

Record LatLng := { ll_lat : Q; ll_lng : Q }.

(** [google.maps.LatLngBounds] *)
Record LatLngBounds := { getNorthEast : LatLng; getSouthWest : LatLng }.

(** The map object: [getBounds()] is undefined until the map has a viewport. *)
Record GMap := { getBounds : option LatLngBounds }.

Record BoundingBox := { north : Q; east : Q; south : Q; west : Q }.

Definition Feature : Type := nat.

Inductive LayerStyle :=
| FillStyle (fillColor : string) (fillOpacity : Q) (strokeColor : string)
            (strokeWeight : Z)
| IconStyle (fillColor : string) (scale : Z).

(** A [google.maps.Data] layer object. *)
Record DataLayer := {
  lid : nat;
  ltype : string;
  lfeatures : list Feature;
  lstyle : LayerStyle;
}.

(** [useState] cells. *)
Record UI := {
  selectedProperty : option Property;
  showEmirates : bool;
  showAreas : bool;
  currentEmirate : string;
  enabledLayers : list string;
  mapLoaded : bool;
  gisInitialized : bool;
}.

(** Values held by [PropertyMapContext]. *)
Record Ctx := {
  selectedPropertyId : value;
  mapMode : string;
}.

(** Refs and what they point to. *)
Record Refs := {
  mapRef : option GMap;
  googleMapsServiceRef : bool;              (* the service object exists *)
  gisLayersRef : gmap string DataLayer;     (* gisLayersRef.current *)
  onMap : list DataLayer;                   (* layers whose map is set *)
  next_lid : nat;
  gis_requests : list (string * BoundingBox);  (* getGisData calls *)
  console : list (string * error);
}.

Record State := { ui : UI; ctx : Ctx; refs : Refs }.

Definition upd_ui (f : UI -> UI) (st : State) : State :=
  {| ui := f (ui st); ctx := ctx st; refs := refs st |}.
Definition upd_ctx (f : Ctx -> Ctx) (st : State) : State :=
  {| ui := ui st; ctx := f (ctx st); refs := refs st |}.
Definition upd_refs (f : Refs -> Refs) (st : State) : State :=
  {| ui := ui st; ctx := ctx st; refs := f (refs st) |}.

Definition setSelectedProperty (v : option Property) : State -> State :=
  upd_ui (fun u =>
    {| selectedProperty := v; showEmirates := showEmirates u;
       showAreas := showAreas u; currentEmirate := currentEmirate u;
       enabledLayers := enabledLayers u; mapLoaded := mapLoaded u;
       gisInitialized := gisInitialized u |}).
Definition setShowEmirates (v : bool) : State -> State :=
  upd_ui (fun u =>
    {| selectedProperty := selectedProperty u; showEmirates := v;
       showAreas := showAreas u; currentEmirate := currentEmirate u;
       enabledLayers := enabledLayers u; mapLoaded := mapLoaded u;
       gisInitialized := gisInitialized u |}).
Definition setShowAreas (v : bool) : State -> State :=
  upd_ui (fun u =>
    {| selectedProperty := selectedProperty u;
       showEmirates := showEmirates u; showAreas := v;
       currentEmirate := currentEmirate u;
       enabledLayers := enabledLayers u; mapLoaded := mapLoaded u;
       gisInitialized := gisInitialized u |}).
Definition setCurrentEmirate (v : string) : State -> State :=
  upd_ui (fun u =>
    {| selectedProperty := selectedProperty u;
       showEmirates := showEmirates u; showAreas := showAreas u;
       currentEmirate := v; enabledLayers := enabledLayers u;
       mapLoaded := mapLoaded u; gisInitialized := gisInitialized u |}).
Definition setEnabledLayers (v : list string) : State -> State :=
  upd_ui (fun u =>
    {| selectedProperty := selectedProperty u;
       showEmirates := showEmirates u; showAreas := showAreas u;
       currentEmirate := currentEmirate u; enabledLayers := v;
       mapLoaded := mapLoaded u; gisInitialized := gisInitialized u |}).
Definition setSelectedPropertyId (v : value) : State -> State :=
  upd_ctx (fun c => {| selectedPropertyId := v; mapMode := mapMode c |}).
Definition setMapMode (v : string) : State -> State :=
  upd_ctx (fun c =>
    {| selectedPropertyId := selectedPropertyId c; mapMode := v |}).

(** *** Selection *)

(** [Marker onClick] *)
Definition marker_onClick (p : Property) (st : State) : State :=
  setSelectedPropertyId (id p) (setSelectedProperty (Some p) st).

(** [InfoWindow onCloseClick] *)
Definition infoWindow_onCloseClick (st : State) : State :=
  setSelectedPropertyId VNull (setSelectedProperty None st).

(** The [scale] of a marker icon in [getPropertyMarkerIcon]: 10 for the
    marker drawn as selected, 8 otherwise. *)
Definition marker_scale (st : State) (p : Property) : Z :=
  if strict_eq (selectedPropertyId (ctx st)) (id p) then 10 else 8.

(** *** Display toggles *)

Definition handleToggleEmirates (show : bool) (st : State) : State :=
  let showAreas_now := showAreas (ui st) in
  let st := setShowEmirates show st in
  if show then
    if showAreas_now then setMapMode "hybrid" st
    else setMapMode "emirates" st
  else if showAreas_now then setMapMode "areas" st
  else setMapMode "properties" st.

Definition handleToggleAreas (show : bool) (st : State) : State :=
  let showEmirates_now := showEmirates (ui st) in
  let st := setShowAreas show st in
  if show then
    if showEmirates_now then setMapMode "hybrid" st
    else setMapMode "areas" st
  else if showEmirates_now then setMapMode "emirates" st
  else setMapMode "properties" st.

Definition handleEmirateChange (em : string) (st : State) : State :=
  setCurrentEmirate em st.

(** The click listener of an emirate boundary layer.  The listener is
    created when the boundaries are loaded and closes over the [showAreas] of
    that render: [showAreas_at_load]. *)
Definition emirate_layer_click (name : string) (showAreas_at_load : bool)
    (st : State) : State :=
  let st' := setCurrentEmirate name st in
  if negb showAreas_at_load then setShowAreas true st' else st'.

(** *** GIS layers *)

Definition handleToggleLayer (layerId : string) (st : State) : State :=
  let prev := enabledLayers (ui st) in
  setEnabledLayers
    (if includes prev layerId
     then filter (fun i => i <> layerId) prev
     else prev ++ [layerId]) st.

Definition layer_types : list string :=
  ["parcels"; "zoning"; "schools"; "hospitals"; "metroStations"; "busStops"].

(** The [switch] on [layerType]. *)
Definition layerStyle (layerType : string) : LayerStyle :=
  if String.eqb layerType "parcels" then FillStyle "#3b82f6" (2 # 10) "#3b82f6" 1
  else if String.eqb layerType "zoning" then FillStyle "#10b981" (2 # 10) "#10b981" 1
  else if String.eqb layerType "schools" then IconStyle "#f59e0b" 8
  else if String.eqb layerType "hospitals" then IconStyle "#ef4444" 8
  else if String.eqb layerType "metroStations" then IconStyle "#8b5cf6" 7
  else if String.eqb layerType "busStops" then IconStyle "#ec4899" 6
  else FillStyle "#3b82f6" (2 # 10) "#3b82f6" 1.

(** The GIS service as seen from the component: how [getGisData] settles. *)
Definition service : Type := string -> BoundingBox -> outcome (list Feature).

(** [layer.setMap(null); delete gisLayersRef.current[layerType]] *)
Definition drop_layer (layerType : string) (st : State) : State :=
  match gisLayersRef (refs st) !! layerType with
  | Some l =>
      upd_refs (fun r =>
        {| mapRef := mapRef r; googleMapsServiceRef := googleMapsServiceRef r;
           gisLayersRef := delete layerType (gisLayersRef r);
           onMap := filter (fun x => lid x <> lid l) (onMap r);
           next_lid := next_lid r; gis_requests := gis_requests r;
           console := console r |}) st
  | None => st
  end.

(** [new google.maps.Data()] with the features and style, put on the map
    and recorded under [layerType]. *)
Definition add_layer (layerType : string) (fs : list Feature) : State -> State :=
  upd_refs (fun r =>
    let l := {| lid := next_lid r; ltype := layerType; lfeatures := fs;
                lstyle := layerStyle layerType |} in
    {| mapRef := mapRef r; googleMapsServiceRef := googleMapsServiceRef r;
       gisLayersRef := <[layerType := l]> (gisLayersRef r);
       onMap := onMap r ++ [l];
       next_lid := S (next_lid r); gis_requests := gis_requests r;
       console := console r |}).

Definition log_request (layerType : string) (b : BoundingBox) : State -> State :=
  upd_refs (fun r =>
    {| mapRef := mapRef r; googleMapsServiceRef := googleMapsServiceRef r;
       gisLayersRef := gisLayersRef r; onMap := onMap r;
       next_lid := next_lid r;
       gis_requests := gis_requests r ++ [(layerType, b)];
       console := console r |}).

Definition console_error (label : string) (e : error) : State -> State :=
  upd_refs (fun r =>
    {| mapRef := mapRef r; googleMapsServiceRef := googleMapsServiceRef r;
       gisLayersRef := gisLayersRef r; onMap := onMap r;
       next_lid := next_lid r; gis_requests := gis_requests r;
       console := console r ++ [(label, e)] |}).

(** [`Error loading ${layerType} layer:`] *)
Definition layer_error_label (layerType : string) : string :=
  String.append "Error loading " (String.append layerType " layer:").

(** The body of the [for] loop of [loadGisLayers]; [enabled] is the
    [enabledLayers] the effect closed over. *)
Definition load_layer (svc : service) (enabled : list string)
    (boundingBox : BoundingBox) (st : State) (layerType : string) : State :=
  let st := drop_layer layerType st in
  if negb (includes enabled layerType) then st
  else
    let st := log_request layerType boundingBox st in
    match svc layerType boundingBox with
    | Resolved gisFeatures => add_layer layerType gisFeatures st
    | Rejected e =>
        console_error (layer_error_label layerType) e st
    end.

Definition boundingBox_of (b : LatLngBounds) : BoundingBox :=
  {| north := ll_lat (getNorthEast b); east := ll_lng (getNorthEast b);
     south := ll_lat (getSouthWest b); west := ll_lng (getSouthWest b) |}.

(** One pass over the layer types, run on its own: the awaits are taken to
    settle before anything else touches [gisLayersRef].  The source never
    cancels a pass, so the passes of toggles that follow each other faster
    than the service answers interleave; that is not modelled. *)
Definition loadGisLayers (svc : service) (st : State) : State :=
  match mapRef (refs st) with
  | Some m =>
      match getBounds m with
      | Some bounds =>
          fold_left (load_layer svc (enabledLayers (ui st))
                       (boundingBox_of bounds)) layer_types st
      | None => st
      end
  | None => st
  end.

(** "Load GIS layers when enabled": the effect on
    [enabledLayers, mapLoaded, gisInitialized]. *)
Definition gis_layers_effect (svc : service) (st : State) : State :=
  if negb (mapLoaded (ui st)) || negb (bool_decide (is_Some (mapRef (refs st))))
     || negb (googleMapsServiceRef (refs st))
     || negb (gisInitialized (ui st))
  then st
  else if (0 <? length (enabledLayers (ui st)))%nat
       then loadGisLayers svc st
       else st.

(** A layer of type [t] is drawn on the map. *)
Definition overlay_present (t : string) (st : State) : Prop :=
  exists l, In l (onMap (refs st)) /\ ltype l = t.


(** *** Events *)

Inductive event :=
| MarkerClick (p : Property)
| InfoWindowClose
| ToggleEmirates (show : bool)
| ToggleAreas (show : bool)
| EmirateChange (em : string)
| EmirateLayerClick (name : string) (showAreas_at_load : bool)
| ToggleLayer (layerId : string).

Definition step (svc : service) (e : event) (st : State) : State :=
  match e with
  | MarkerClick p => marker_onClick p st
  | InfoWindowClose => infoWindow_onCloseClick st
  | ToggleEmirates show => handleToggleEmirates show st
  | ToggleAreas show => handleToggleAreas show st
  | EmirateChange em => handleEmirateChange em st
  | EmirateLayerClick name captured => emirate_layer_click name captured st
  | ToggleLayer layerId => gis_layers_effect svc (handleToggleLayer layerId st)
  end.

Definition run (svc : service) (evs : list event) (st : State) : State :=
  fold_left (fun s e => step svc e s) evs st.

(** The display toggles of the settings panel. *)
Definition is_display_toggle (e : event) : bool :=
  match e with
  | ToggleEmirates _ | ToggleAreas _ => true
  | _ => false
  end.

(** The mode that belongs to a pair of display flags. *)
Definition mode_of (emirates areas : bool) : string :=
  match emirates, areas with
  | true, true => "hybrid"
  | true, false => "emirates"
  | false, true => "areas"
  | false, false => "properties"
  end.

(** The selected property and the selected id name the same property. *)
Definition selection_agrees (st : State) : Prop :=
  match selectedProperty (ui st) with
  | Some p => selectedPropertyId (ctx st) = id p
  | None => selectedPropertyId (ctx st) = VNull
  end.

(** The component once the map and the GIS service are ready; the context
    starts with nothing selected and [mode] as map mode. *)
Definition ready (m : GMap) (mode : string) : State :=
  {| ui := {| selectedProperty := None; showEmirates := false;
              showAreas := false; currentEmirate := "Dubai";
              enabledLayers := []; mapLoaded := true;
              gisInitialized := true |};
     ctx := {| selectedPropertyId := VNull; mapMode := mode |};
     refs := {| mapRef := Some m; googleMapsServiceRef := true;
                gisLayersRef := ∅; onMap := []; next_lid := 0;
                gis_requests := []; console := [] |} |}.

End Google.

(** ** Sample inputs *)

Module Samples.

Import Leaflet.

Definition at_ (i : Z) (la ln : Q) : option Property :=
  Some {| id := VNum (inject_Z i);
          location := Some {| lat := VNum la; lng := VNum ln |} |}.

(** Three listings around Dubai, a null row, a row without a location and a
    row whose latitude is NaN. *)
Definition dubai_rows : list (option Property) :=
  [ at_ 1 (252048 # 10000) (552708 # 10000);
    None;
    Some {| id := VNum 2; location := None |};
    at_ 3 (250657 # 10000) (551713 # 10000);
    Some {| id := VNum 4;
            location := Some {| lat := VNaN; lng := VNum 55 |} |};
    at_ 5 (251972 # 10000) (552744 # 10000) ].

(** A single row with a numeric latitude of 100. *)
Definition far_north : list (option Property) := [ at_ 1 100 0 ].

Definition inputs0 : Inputs :=
  {| enabledGisLayers := Some ["parcels"]; propertyMarkers := None;
     propertyDetails := None; loadPropertyMarkers := true |}.

Definition villa : Property :=
  {| id := VNum 7;
     location := Some {| lat := VNum (252048 # 10000);
                         lng := VNum (552708 # 10000) |} |}.

Definition timeout : error := Error "Network timeout".


(** The bounding box of [dubai_rows]. *)
Definition dubai_bounds : Bounds :=
  ((250657 # 10000, 551713 # 10000), (252048 # 10000, 552744 # 10000)).

(** The service comes up and the first markers arrive at time 0; 100 ms
    later the parent enables a second layer; then 500 ms pass. *)
Definition layer_change_trace : list event :=
  [ Mount; Settle 0 (Resolved (DBool true));
    SetPropertyMarkers (Some {| properties := Some dubai_rows |}) ]
  ++ repeat Tick 100
  ++ [ SetEnabledGisLayers (Some ["parcels"; "zoning"]) ]
  ++ repeat Tick 500.

Definition abu_dhabi_bounds : Bounds :=
  ((244000 # 10000, 543000 # 10000), (245000 # 10000, 544000 # 10000)).

(** The bounds are set at time 0 and again 100 ms later; then 500 ms pass. *)
Definition bounds_change_trace : list event :=
  [ Mount; Settle 0 (Resolved (DBool true)); SetMapBounds dubai_bounds ]
  ++ repeat Tick 100
  ++ [ SetMapBounds abu_dhabi_bounds ]
  ++ repeat Tick 500.

(** The Google map over Dubai. *)
Definition viewport : Google.GMap :=
  {| Google.getBounds :=
       Some {| Google.getNorthEast := {| Google.ll_lat := 253 # 10;
                                         Google.ll_lng := 554 # 10 |};
               Google.getSouthWest := {| Google.ll_lat := 250 # 10;
                                         Google.ll_lng := 551 # 10 |} |} |}.

(** A GIS service that answers every request with two features. *)
Definition gis_ok : Google.service := fun _ _ => Resolved [1; 2].


Definition listing (i : Z) : Google.Property :=
  {| Google.id := VNum (inject_Z i); Google.lat := VNum (252 # 10);
     Google.lng := VNum (552 # 10); Google.title := "Villa" |}.

(** A boundary service whose Sharjah endpoint is down. *)
Definition regions_sharjah_down : string -> string -> outcome nat :=
  fun name _ =>
    if String.eqb name "Sharjah" then Rejected timeout else Resolved 1.

End Samples.

(** ** The map controller *)

Module Controller.

(** The props of [MapController] as they arrive: a plain value, an array or
    some other object. *)
#[warnings="-register-all"]
Inductive jv :=
| JV (v : value)
| JArr (items : list jv)
| JObj.

Definition jv_truthy (x : jv) : bool :=
  match x with
  | JV v => truthy v
  | JArr _ | JObj => true
  end.

(** [Array.isArray(x)] *)
Definition isArray (x : jv) : bool :=
  match x with
  | JArr _ => true
  | _ => false
  end.

(** [x.length] of an array *)
Definition length_of (x : jv) : nat :=
  match x with
  | JArr items => length items
  | _ => 0
  end.

(** [x[i]] *)
Definition index (x : jv) (i : nat) : jv :=
  match x with
  | JArr items => nth i items (JV VUndefined)
  | _ => JV VUndefined
  end.

(** [typeof x === 'number'] *)
Definition jv_typeof_number (x : jv) : bool :=
  match x with
  | JV v => typeof_number v
  | _ => false
  end.

(** [isNaN(x)] on an [x] whose [typeof] is ['number'] *)
Definition jv_isNaN (x : jv) : bool :=
  match x with
  | JV v => isNaN v
  | _ => true
  end.

(** The calls made on the Leaflet map object. *)
Inductive map_call :=
| SetView (center : jv) (zoom : value)
| FitBounds (bounds : jv) (padding : Z * Z).

(** "Update map view when center or zoom changes" *)
Definition view_effect (center : jv) (zoom : value) : list map_call :=
  if jv_truthy center && truthy zoom && isArray center
     && (length_of center =? 2)%nat
  then
    let lat := index center 0 in
    let lng := index center 1 in
    if jv_typeof_number lat && jv_typeof_number lng
       && negb (jv_isNaN lat) && negb (jv_isNaN lng)
    then [SetView center zoom]
    else []
  else [].

(** The callback of [bounds.every]. *)
Definition valid_coord (coord : jv) : bool :=
  isArray coord && (length_of coord =? 2)%nat
  && jv_typeof_number (index coord 0) && jv_typeof_number (index coord 1)
  && negb (jv_isNaN (index coord 0)) && negb (jv_isNaN (index coord 1)).

(** What the bounds effect does: the calls it makes and what it logs. *)
Record effect_result := {
  calls : list map_call;
  logged : list (string * error);
}.

(** "Fit bounds when bounds change"; [fitBounds] tells whether Leaflet's
    [map.fitBounds] throws on the given bounds. *)
Definition bounds_effect (fitBounds : jv -> option error) (bounds : jv)
  : effect_result :=
  if jv_truthy bounds && isArray bounds && (length_of bounds =? 2)%nat then
    let isValidBounds :=
      match bounds with
      | JArr items => forallb valid_coord items
      | _ => false
      end in
    if isValidBounds then
      {| calls := [FitBounds bounds (50, 50)%Z];
         logged := match fitBounds bounds with
                   | Some e => [("Error fitting bounds:", e)]
                   | None => []
                   end |}
    else {| calls := []; logged := [] |}
  else {| calls := []; logged := [] |}.

(** [x] is a pair of non-NaN numbers, [[a, b]]. *)
Definition is_point (x : jv) : Prop :=
  exists a b : Q, x = JArr [JV (VNum a); JV (VNum b)].

(** [x] is a pair of such pairs, [[[a, b], [c, d]]]. *)
Definition is_box (x : jv) : Prop :=
  exists p q, x = JArr [p; q] /\ is_point p /\ is_point q.

(** The props [PropertyMap] passes: [bounds={mapBounds}],
    [center={mapCenter}], [zoom={mapZoom}]. *)
Definition of_point (c : Q * Q) : jv :=
  JArr [JV (VNum (fst c)); JV (VNum (snd c))].

Definition of_bounds (b : option Leaflet.Bounds) : jv :=
  match b with
  | Some b => JArr [of_point (fst b); of_point (snd b)]
  | None => JV VNull
  end.

End Controller.

(** ** What the Leaflet component shows *)

Module LeafletView.

Import Leaflet.



(** [key={property.id || `property-${lat}-${lng}`}] *)
Inductive marker_key :=
| KeyId (i : value)
| KeyPosition (lat lng : Q).

(** A [Marker] element of the render. *)
Record MarkerView := {
  mv_key : marker_key;
  mv_position : Q * Q;
  mv_selected : bool;     (* the [marker-selected] class and the larger icon *)
  mv_click : value;       (* the argument of [handleMarkerClick] *)
}.

(** [propertyDetails && propertyDetails.id === property.id] *)
Definition isSelected (pd : option Property) (p : Property) : bool :=
  match pd with
  | Some d => strict_eq (id d) (id p)
  | None => false
  end.

(** The body of [displayProperties.map]: [None] is the [null] element.  (The
    [try] block holds only the icon constructor and the element.) *)
Definition render_marker (pd : option Property) (p : option Property)
  : option MarkerView :=
  let lat := get_lat p in
  let lng := get_lng p in
  if negb (typeof_number lat) || negb (typeof_number lng)
     || isNaN lat || isNaN lng
  then None
  else
    match p, lat, lng with
    | Some q, VNum la, VNum ln =>
        Some {| mv_key := if truthy (id q) then KeyId (id q)
                          else KeyPosition la ln;
                mv_position := (la, ln);
                mv_selected := isSelected pd q;
                mv_click := id q |}
    | _, _, _ => None
    end.

Definition render_markers (pd : option Property)
    (ps : list (option Property)) : list MarkerView :=
  omap (render_marker pd) ps.

(** [mapCenter] and [mapZoom]. *)
Record View := { mapCenter : Q * Q; mapZoom : Q }.

(** [useState([25.276987, 55.296249])] and [useState(10)] *)
Definition view0 : View :=
  {| mapCenter := (25276987 # 1000000, 55296249 # 1000000); mapZoom := 10 |}.

(** "Update map center and zoom when a property is selected" *)
Definition center_effect (pd : option Property) (v : View) : View :=
  match pd with
  | Some {| location := Some l |} =>
      if typeof_number (lat l) && typeof_number (lng l)
         && negb (isNaN (lat l)) && negb (isNaN (lng l))
      then
        match lat l, lng l with
        | VNum la, VNum ln => {| mapCenter := (la, ln); mapZoom := 16 |}
        | _, _ => v
        end
      else v
  | _ => v
  end.


End LeafletView.

(** ** Markers and boundaries of the Google map *)

Module GoogleView.

Import Google.

(** [zIndex={selectedPropertyId === property.id ? 1000 : undefined}] *)
Definition marker_zIndex (st : State) (p : Property) : option Z :=
  if strict_eq (selectedPropertyId (ctx st)) (id p) then Some 1000%Z else None.

(** The cluster icon of the clusterer's [render]: [scale] and [zIndex] for
    a cluster of [count] markers; [max_zindex] is
    [google.maps.Marker.MAX_ZINDEX]. *)
Definition cluster_scale (count : nat) : Z :=
  if (count <? 10)%nat then 18 else if (count <? 100)%nat then 22 else 26.

Definition cluster_zIndex (max_zindex : Z) (count : nat) : Z :=
  (max_zindex + Z.of_nat count)%Z.

(** *** Emirates boundaries *)

(** A boundary [google.maps.Data] layer with the style it was given. *)
Record BoundaryLayer := {
  bl_id : nat;
  bl_region : string;
  bl_fillColor : string;
  bl_strokeColor : string;
}.

(** A GeoJSON payload; only its identity matters here. *)
Definition GeoJSON : Type := nat.

(** [getRegionBoundary(name, kind)] as seen from the component. *)
Definition region_service : Type := string -> string -> outcome GeoJSON.

(** The [emirates] entry of [gisLayersRef.current], the boundary layers drawn
    on the map and the logs. *)
Record Boundaries := {
  emirates_ref : option (list BoundaryLayer);
  drawn : list BoundaryLayer;
  next_bl : nat;
  region_requests : list (string * string);
  b_console : list (string * error);
}.

Definition emirates : list string :=
  ["Dubai"; "Abu Dhabi"; "Sharjah"; "Ajman"; "Ras Al Khaimah"; "Fujairah";
   "Umm Al Quwain"].

(** [emiratesColors[emirate] || '#3b82f6'] *)
Definition emirate_color (emiratesColors : gmap string string)
    (emirate : string) : string :=
  match emiratesColors !! emirate with
  | Some c => or_default c "#3b82f6"
  | None => "#3b82f6"
  end.

(** "Clean up existing boundaries" *)
Definition cleanup_emirates (b : Boundaries) : Boundaries :=
  match emirates_ref b with
  | Some ls =>
      {| emirates_ref := Some [];
         drawn := fold_left
                    (fun d l => filter (fun x => bl_id x <> bl_id l) d)
                    ls (drawn b);
         next_bl := next_bl b; region_requests := region_requests b;
         b_console := b_console b |}
  | None => b
  end.

(** The [for] loop inside the [try]: the layers collected so far and the
    state; the result is [None] when an [await] rejected, which leaves the
    loop for the [catch].  The calls on the new layer ([addGeoJson],
    [setStyle], [setMap], [addListener]) are taken to accept what the service
    resolved with. *)
Fixpoint emirates_loop (svc : region_service)
    (emiratesColors : gmap string string) (todo : list string)
    (layers : list BoundaryLayer) (b : Boundaries)
  : Boundaries * option (list BoundaryLayer) :=
  match todo with
  | [] => (b, Some layers)
  | emirate :: rest =>
      let b := {| emirates_ref := emirates_ref b; drawn := drawn b;
                  next_bl := next_bl b;
                  region_requests := region_requests b ++ [(emirate, "emirate")];
                  b_console := b_console b |} in
      match svc emirate "emirate" with
      | Resolved geoJson =>
          let color := emirate_color emiratesColors emirate in
          let layer := {| bl_id := next_bl b; bl_region := emirate;
                          bl_fillColor := color; bl_strokeColor := color |} in
          emirates_loop svc emiratesColors rest (layers ++ [layer])
            {| emirates_ref := emirates_ref b; drawn := drawn b ++ [layer];
               next_bl := S (next_bl b);
               region_requests := region_requests b;
               b_console := b_console b |}
      | Rejected e =>
          ({| emirates_ref := emirates_ref b; drawn := drawn b;
              next_bl := next_bl b; region_requests := region_requests b;
              b_console := b_console b
                           ++ [("Error loading emirates boundaries:", e)] |},
           None)
      end
  end.

(** [loadEmiratesBoundaries] *)
Definition loadEmiratesBoundaries (svc : region_service)
    (emiratesColors : gmap string string) (b : Boundaries) : Boundaries :=
  let b := cleanup_emirates b in
  match emirates_loop svc emiratesColors emirates [] b with
  | (b', Some layers) =>
      {| emirates_ref := Some layers; drawn := drawn b';
         next_bl := next_bl b'; region_requests := region_requests b';
         b_console := b_console b' |}
  | (b', None) => b'
  end.

(** "Load emirates boundaries if show emirates is enabled" *)
Definition emirates_boundaries_effect (svc : region_service)
    (emiratesColors : gmap string string) (st : State) (b : Boundaries)
  : Boundaries :=
  if negb (showEmirates (ui st)) || negb (mapLoaded (ui st))
     || negb (bool_decide (is_Some (mapRef (refs st))))
     || negb (googleMapsServiceRef (refs st))
     || negb (gisInitialized (ui st))
  then b
  else loadEmiratesBoundaries svc emiratesColors b.



End GoogleView.

(** ** Further observations on the Leaflet component *)

Module LeafletObs.

Import Leaflet.

(** Between [st] and [st'] no time passed, and every timer that was set is
    due 300 ms (marker fetch) or 500 ms (viewport GIS fetch) after [st]. *)
Definition delayed (st st' : State) : Prop :=
  now (host st') = now (host st) /\
  forall t, In t (timers (host st')) ->
    In t (timers (host st)) \/
    (is_marker_timer t = true /\ due t = now (host st) + 300) \/
    (is_marker_timer t = false /\ due t = now (host st) + 500).

(** While the GIS service is not initialised, only [initialize] is called
    and no viewport GIS timer is set. *)
Definition gis_quiet (st st' : State) : Prop :=
  gisInitialized (react st') = false ->
  gisInitialized (react st) = false /\
  (forall c, In c (service_calls (host st')) ->
     In c (service_calls (host st)) \/ snd c = Initialize) /\
  (forall t, In t (timers (host st')) ->
     In t (timers (host st)) \/ is_marker_timer t = true).


(** Without an initialised GIS service every call made so far is
    [initialize] and every pending timer is a marker timer. *)
Definition gis_gated (st : State) : Prop :=
  gisInitialized (react st) = false ->
  (forall c, In c (service_calls (host st)) -> snd c = Initialize) /\
  (forall t, In t (timers (host st)) -> is_marker_timer t = true).

End LeafletObs.

(** ** Further observations on the Google component *)

Module GoogleObs.

Import Google.

(** The ids of the properties are pairwise different under [===]. *)
Definition distinct_ids {A : Type} (id_of : A -> value) (ps : list A) : Prop :=
  ForallOrdPairs (fun p q => strict_eq (id_of p) (id_of q) = false) ps.

End GoogleObs.

(** * Properties *)

(** ** Folding [Math.min] and [Math.max] over a list *)

Section MinMaxFold.

Local Open Scope Q_scope.

Lemma Math_min_cases a b : Math_min a b = a \/ Math_min a b = b.
Proof.
  unfold Math_min, Qmin, GenericMinMax.gmin.
  destruct (a ?= b); auto.
Qed.

Lemma Math_max_cases a b : Math_max a b = a \/ Math_max a b = b.
Proof.
  unfold Math_max, Qmax, GenericMinMax.gmax.
  destruct (a ?= b); auto.
Qed.

Lemma fold_min_spec xs : forall s,
  let m := fold_left Math_min xs s in
  (m = s \/ In m xs) /\ m <= s /\ forall x, In x xs -> m <= x.
Proof.
  induction xs as [|x xs IH]; intros s; simpl.
  - repeat split; [now left | apply Qle_refl | tauto].
  - destruct (IH (Math_min s x)) as (Hm & Hle & Hall).
    assert (Hs : Math_min s x <= s) by apply Q.le_min_l.
    assert (Hx : Math_min s x <= x) by apply Q.le_min_r.
    repeat split.
    + destruct Hm as [Hm|Hm]; [|now right; right].
      rewrite Hm. destruct (Math_min_cases s x) as [->| ->]; auto.
    + eapply Qle_trans; eauto.
    + intros y [<-|Hy]; [eapply Qle_trans; eauto | auto].
Qed.

Lemma fold_max_spec xs : forall s,
  let m := fold_left Math_max xs s in
  (m = s \/ In m xs) /\ s <= m /\ forall x, In x xs -> x <= m.
Proof.
  induction xs as [|x xs IH]; intros s; simpl.
  - repeat split; [now left | apply Qle_refl | tauto].
  - destruct (IH (Math_max s x)) as (Hm & Hle & Hall).
    assert (Hs : s <= Math_max s x) by apply Q.le_max_l.
    assert (Hx : x <= Math_max s x) by apply Q.le_max_r.
    repeat split.
    + destruct Hm as [Hm|Hm]; [|now right; right].
      rewrite Hm. destruct (Math_max_cases s x) as [->| ->]; auto.
    + eapply Qle_trans; eauto.
    + intros y [<-|Hy]; [eapply Qle_trans; eauto | auto].
Qed.

(** With a seed above every element, the fold is a minimum of a non-empty
    list. *)
Lemma fold_min_is_min xs s :
  xs <> [] -> (forall x, In x xs -> x <= s) ->
  Leaflet.is_min (fold_left Math_min xs s) xs.
Proof.
  intros Hne Hs. destruct (fold_min_spec xs s) as (Hm & Hle & Hall).
  split; [|exact Hall].
  destruct Hm as [Hm|Hm].
  - destruct xs as [|x xs]; [congruence|].
    exists x. split; [now left|].
    apply Qle_antisym.
    + rewrite Hm. apply Hs. now left.
    + apply Hall. now left.
  - eexists. split; [exact Hm | apply Qeq_refl].
Qed.

Lemma fold_max_is_max xs s :
  xs <> [] -> (forall x, In x xs -> s <= x) ->
  Leaflet.is_max (fold_left Math_max xs s) xs.
Proof.
  intros Hne Hs. destruct (fold_max_spec xs s) as (Hm & Hle & Hall).
  split; [|exact Hall].
  destruct Hm as [Hm|Hm].
  - destruct xs as [|x xs]; [congruence|].
    exists x. split; [now left|].
    apply Qle_antisym.
    + apply Hall. now left.
    + rewrite Hm. apply Hs. now left.
  - eexists. split; [exact Hm | apply Qeq_refl].
Qed.

End MinMaxFold.

(** ** The Leaflet component *)

Module LeafletProps.

Import Leaflet.

(** *** Bounds recomputation *)

Lemma valid_location_num p :
  valid_location p = true <->
  exists la ln, get_lat p = VNum la /\ get_lng p = VNum ln.
Proof.
  unfold valid_location. split.
  - destruct (get_lat p), (get_lng p); simpl; try discriminate; eauto.
  - intros (la & ln & -> & ->). reflexivity.
Qed.

Lemma coords_cons p ps :
  coords (p :: ps) =
  match get_lat p, get_lng p with
  | VNum la, VNum ln => (la, ln) :: coords ps
  | _, _ => coords ps
  end.
Proof.
  unfold coords. simpl.
  destruct (get_lat p), (get_lng p); reflexivity.
Qed.

Lemma scan_coords ps : forall acc,
  fold_left extend ps acc = fold_left extend_by (coords ps) acc.
Proof.
  induction ps as [|p ps IH]; intros acc; [reflexivity|].
  rewrite coords_cons. simpl. rewrite IH.
  unfold extend, valid_location.
  destruct (get_lat p), (get_lng p); reflexivity.
Qed.

Lemma coords_filter ps :
  coords (List.filter valid_location ps) = coords ps.
Proof.
  induction ps as [|p ps IH]; [reflexivity|]. cbn [List.filter].
  destruct (valid_location p) eqn:Hv; rewrite !coords_cons, IH; [reflexivity|].
  unfold valid_location in Hv.
  destruct (get_lat p), (get_lng p); try reflexivity; discriminate.
Qed.

Lemma fold_extend_by cs : forall acc,
  let e := fold_left extend_by cs acc in
  x_south e = fold_left Math_min (map fst cs) (x_south acc) /\
  x_west e = fold_left Math_min (map snd cs) (x_west acc) /\
  x_north e = fold_left Math_max (map fst cs) (x_north acc) /\
  x_east e = fold_left Math_max (map snd cs) (x_east acc) /\
  validLocationsCount e = (length cs + validLocationsCount acc)%nat.
Proof.
  induction cs as [|c cs IH]; intros acc; simpl; [tauto|].
  destruct (IH (extend_by acc c)) as (-> & -> & -> & -> & ->).
  simpl. repeat split. lia.
Qed.

Lemma coords_nonempty_length ps : coords ps <> [] -> (length ps =? 0)%nat = false.
Proof. destruct ps; [intros H; now elim H | reflexivity]. Qed.

Lemma recompute_scan ps :
  coords ps <> [] ->
  recompute (Some {| properties := Some ps |}) None =
  let e := fold_left extend_by (coords ps) extent0 in
  Some ((x_south e, x_west e), (x_north e, x_east e)).
Proof.
  intros Hne. unfold recompute.
  rewrite (coords_nonempty_length ps Hne). unfold scan.
  rewrite scan_coords.
  destruct (fold_extend_by (coords ps) extent0) as (_ & _ & _ & _ & Hc).
  cbv zeta in *. rewrite Hc.
  destruct (coords ps); [congruence | reflexivity].
Qed.

(** C3 (amended). When every property with a valid numeric location has its
    latitude within [-90, 90] and its longitude within [-180, 180], and there
    is at least one such property, the bounds the recompute effect writes are
    [[min lat, min lng], [max lat, max lng]] over exactly the properties with
    valid numeric locations; the rows with a missing or non-numeric location
    do not affect the result. *)
Theorem recompute_bounding_box (ps : list (option Property)) :
  coords ps <> [] ->
  Forall in_range (coords ps) ->
  exists b,
    recompute (Some {| properties := Some ps |}) None = Some b /\
    bounding_box (coords ps) b /\
    recompute (Some {| properties := Some (List.filter valid_location ps) |})
      None = Some b.
Proof.
  intros Hne Hr.
  eexists. split; [apply recompute_scan; exact Hne|]. cbv zeta.
  split.
  - destruct (fold_extend_by (coords ps) extent0) as (Hs & Hw & Hn & He & _).
    cbv zeta in *. unfold bounding_box. simpl fst. simpl snd.
    rewrite Hs, Hw, Hn, He.
    assert (Hm : forall (f : Q * Q -> Q), map f (coords ps) <> [])
      by (intros f; destruct (coords ps); [congruence | discriminate]).
    rewrite Forall_forall in Hr.
    assert (Hin : forall (f : Q * Q -> Q) x, In x (map f (coords ps)) ->
              exists c, in_range c /\ x = f c).
    { intros f x Hx. apply in_map_iff in Hx as (c & <- & Hc).
      exists c. split; [|reflexivity]. apply Hr. now apply list_elem_of_In. }
    repeat split; (apply fold_min_is_min || apply fold_max_is_max);
      try apply Hm; intros x Hx; apply Hin in Hx as (c & Hc & ->);
      unfold in_range in Hc; simpl; tauto.
  - rewrite recompute_scan by (now rewrite coords_filter).
    now rewrite coords_filter.
Qed.

Lemma recompute_bounding_box_witness :
  exists b,
    recompute (Some {| properties := Some Samples.dubai_rows |}) None = Some b /\
    bounding_box (coords Samples.dubai_rows) b /\
    recompute
      (Some {| properties := Some (List.filter valid_location Samples.dubai_rows) |})
      None = Some b.
Proof.
  apply (recompute_bounding_box Samples.dubai_rows).
  - discriminate.
  - repeat constructor; vm_compute; discriminate.
Defined.

(** C3, as stated, fails on a row whose numeric latitude lies outside
    [-90, 90]: the southern bound stays at its seed 90. *)
Lemma recompute_bounding_box_counterexample :
  coords Samples.far_north <> [] /\
  ~ exists b,
      recompute (Some {| properties := Some Samples.far_north |}) None = Some b /\
      bounding_box (coords Samples.far_north) b.
Proof.
  split; [discriminate|].
  intros (b & Hb & (((x & Hx & Heq) & _) & _)).
  vm_compute in Hb. injection Hb as <-.
  simpl in Hx. destruct Hx as [<-|[]].
  vm_compute in Heq. discriminate.
Qed.

(** *** Bounds are recomputed only while unset *)

Lemma recompute_set pm b : recompute pm (Some b) = None.
Proof.
  unfold recompute. destruct pm as [[[ps|]]|]; try reflexivity.
  destruct (length ps =? 0)%nat; reflexivity.
Qed.

Lemma step_markers_keeps_bounds st b pm :
  mapBounds (react st) = Some b ->
  step (SetPropertyMarkers pm) st = set_propertyMarkers pm st.
Proof.
  intros Hb. simpl. unfold recompute_effect. simpl.
  rewrite Hb, recompute_set. reflexivity.
Qed.

(** C4. The recompute effect writes [mapBounds] only when it is null: once
    bounds exist, no change of the property-marker list overwrites them. *)
Theorem bounds_recomputed_only_when_unset (st : State) (b : Bounds)
    (pms : list (option PropertyMarkers)) :
  mapBounds (react st) = Some b ->
  mapBounds (react (run (map SetPropertyMarkers pms) st)) = Some b /\
  forall pm, recompute_effect (set_propertyMarkers pm st)
             = set_propertyMarkers pm st.
Proof.
  intros Hb. split.
  - revert st Hb. induction pms as [|pm pms IH]; intros st Hb; [exact Hb|].
    cbn [map run fold_left]. apply IH.
    now rewrite (step_markers_keeps_bounds st b).
  - intros pm. now apply (step_markers_keeps_bounds st b pm).
Qed.

Lemma bounds_recomputed_only_when_unset_witness :
  let st := setMapBounds (Some Samples.abu_dhabi_bounds)
              (initial Samples.inputs0) in
  mapBounds
    (react (run (map SetPropertyMarkers
                   [Some {| properties := Some Samples.dubai_rows |}; None;
                    Some {| properties := Some Samples.far_north |}]) st))
  = Some Samples.abu_dhabi_bounds.
Proof.
  intros st.
  apply (bounds_recomputed_only_when_unset st Samples.abu_dhabi_bounds).
  reflexivity.
Defined.

(** *** Settling service calls *)

(** Split on every [match] and [if] of an unfolded effect. *)
Ltac effect_cases :=
  repeat match goal with
         | |- context [match ?x with _ => _ end] => destruct x eqn:?
         end.

Lemma pending_remove_ne rid rid' st :
  rid <> rid' -> pending rid (remove_inflight rid' st) = pending rid st.
Proof.
  intros Hne. unfold pending, remove_inflight. simpl.
  induction (inflight (host st)) as [|[i r] l IH]; [reflexivity|].
  simpl. rewrite filter_cons. simpl.
  destruct (decide (i <> rid')) as [Hi|Hi].
  - simpl. destruct (Nat.eqb_spec i rid); [reflexivity | exact IH].
  - destruct (Nat.eqb_spec i rid); [|exact IH].
    exfalso. apply Hi. congruence.
Qed.

Lemma pending_app rid r st extra :
  pending rid st = Some r ->
  snd <$> find (fun p => Nat.eqb (fst p) rid)
            (inflight (host st) ++ extra)%list
  = Some r.
Proof.
  unfold pending.
  induction (inflight (host st)) as [|[i q] l IH]; [discriminate|].
  simpl. destruct (Nat.eqb i rid); [trivial | exact IH].
Qed.

Lemma extends_refl st : extends st st.
Proof. exists []. now rewrite app_nil_r. Qed.

Lemma extends_trans a b c : extends a b -> extends b c -> extends a c.
Proof.
  intros [x Hx] [y Hy]. exists (x ++ y). now rewrite Hy, Hx, app_assoc.
Qed.

Lemma extends_same st st' :
  inflight (host st') = inflight (host st) -> extends st st'.
Proof. intros H. exists []. now rewrite app_nil_r. Qed.

Lemma extends_pending st st' rid r :
  extends st st' -> pending rid st = Some r -> pending rid st' = Some r.
Proof.
  intros [extra He] Hp. unfold pending at 1. rewrite He.
  now apply pending_app.
Qed.

Lemma call_service_extends r st : extends st (call_service r st).
Proof. now eexists. Qed.

Lemma marker_effect_inflight st :
  inflight (host (marker_effect st)) = inflight (host st).
Proof. unfold marker_effect. effect_cases; reflexivity. Qed.

Lemma gis_effect_inflight st :
  inflight (host (gis_effect st)) = inflight (host st).
Proof. unfold gis_effect. effect_cases; reflexivity. Qed.

Lemma emirates_effect_extends st : extends st (emirates_effect st).
Proof.
  unfold emirates_effect. effect_cases;
    [apply extends_refl | apply call_service_extends].
Qed.

Lemma areas_effect_extends st : extends st (areas_effect st).
Proof.
  unfold areas_effect. effect_cases;
    [apply extends_refl | apply call_service_extends].
Qed.

Lemma property_gis_effect_extends st : extends st (property_gis_effect st).
Proof.
  unfold property_gis_effect. effect_cases;
    first [apply extends_refl | apply call_service_extends].
Qed.

Lemma bounds_effects_inflight st :
  inflight (host (bounds_effects st)) = inflight (host st).
Proof.
  unfold bounds_effects. now rewrite gis_effect_inflight, marker_effect_inflight.
Qed.

Lemma recompute_effect_inflight st :
  inflight (host (recompute_effect st)) = inflight (host st).
Proof.
  unfold recompute_effect. effect_cases; [|reflexivity].
  now rewrite bounds_effects_inflight.
Qed.

Lemma fire_extends t st : extends st (fire t st).
Proof.
  unfold fire. effect_cases;
    [now apply extends_same | apply call_service_extends].
Qed.

Lemma fold_fire_extends ts : forall st,
  extends st (fold_left (fun s t => fire t s) ts st).
Proof.
  induction ts as [|t ts IH]; intros st; [apply extends_refl|].
  simpl. eapply extends_trans; [apply fire_extends | apply IH].
Qed.

Lemma tick_extends st : extends st (tick st).
Proof.
  unfold tick. eapply extends_trans; [|apply fold_fire_extends].
  now apply extends_same.
Qed.

Lemma initialized_effects_extends st : extends st (initialized_effects st).
Proof.
  unfold initialized_effects.
  eapply extends_trans; [apply emirates_effect_extends|].
  eapply extends_trans; [apply areas_effect_extends|].
  eapply extends_trans;
    [apply extends_same, gis_effect_inflight | apply property_gis_effect_extends].
Qed.

(** No event other than its own completion removes a call in flight. *)
Lemma step_keeps_pending e st rid r :
  pending rid st = Some r ->
  (forall o, e <> Settle rid o) ->
  pending rid (step e st) = Some r.
Proof.
  intros Hp Hne.
  destruct e as [|pm|pd|b|ls|b|show|show|em|em| |rid' o].
  - eapply extends_pending; [|exact Hp]. simpl.
    eapply extends_trans; [apply (call_service_extends Initialize)|].
    unfold initialize_effect.
    eapply extends_trans; [apply emirates_effect_extends|].
    eapply extends_trans; [apply areas_effect_extends|].
    eapply extends_trans; [apply extends_same, marker_effect_inflight|].
    eapply extends_trans; [apply extends_same, gis_effect_inflight|].
    eapply extends_trans; [apply property_gis_effect_extends|].
    apply extends_same, recompute_effect_inflight.
  - eapply extends_pending; [|exact Hp]. simpl.
    apply extends_same. now rewrite recompute_effect_inflight.
  - eapply extends_pending; [|exact Hp]. simpl.
    apply (property_gis_effect_extends (set_propertyDetails pd st)).
  - eapply extends_pending; [|exact Hp]. simpl.
    destruct (Bool.eqb _ _); [apply extends_refl|].
    apply extends_same. now rewrite marker_effect_inflight.
  - eapply extends_pending; [|exact Hp]. simpl.
    apply extends_same. now rewrite gis_effect_inflight.
  - eapply extends_pending; [|exact Hp]. simpl.
    apply extends_same. now rewrite bounds_effects_inflight.
  - eapply extends_pending; [|exact Hp]. simpl.
    destruct (Bool.eqb _ _); [apply extends_refl|].
    apply (emirates_effect_extends (setShowEmirates show st)).
  - eapply extends_pending; [|exact Hp]. simpl.
    destruct (Bool.eqb _ _); [apply extends_refl|].
    apply (areas_effect_extends (setShowAreas show st)).
  - eapply extends_pending; [|exact Hp]. simpl.
    destruct (String.eqb _ _); [apply extends_refl|].
    apply (areas_effect_extends (setCurrentEmirate em st)).
  - eapply extends_pending; [|exact Hp]. simpl.
    destruct (_ && _); [apply extends_refl|].
    apply (areas_effect_extends (setShowAreas true (setCurrentEmirate em st))).
  - eapply extends_pending; [apply tick_extends | exact Hp].
  - assert (Hr : rid <> rid') by (intros ->; now apply (Hne o)).
    simpl. destruct (pending rid' st) as [r'|] eqn:Hp'; [|exact Hp].
    assert (Hq : pending rid (remove_inflight rid' st) = Some r)
      by now rewrite pending_remove_ne.
    revert Hq. generalize (remove_inflight rid' st). intros s Hq.
    destruct r', o; simpl; try exact Hq.
    destruct (gisInitialized (react s)); [exact Hq|].
    eapply extends_pending; [|exact Hq].
    apply (initialized_effects_extends (setGisInitialized true s)).
Qed.

Lemma settle_layers_resolved st rid b ls d :
  pending rid st = Some (GetLayers b ls) ->
  step (Settle rid (Resolved d)) st
  = setGisLoading false (setGisLayers d (remove_inflight rid st)).
Proof. intros Hp. simpl. now rewrite Hp. Qed.

(** C8. No call in flight is ever cancelled: any event other than the
    call's own completion leaves it pending.  So when two viewport GIS
    fetches overlap, the response that completes last is the one left in
    [gisLayers], also when its call was issued first. *)
Theorem last_response_wins (st : State) (rid1 rid2 : nat)
    (b1 b2 : BBox) (ls1 ls2 : list string) (d1 d2 : data) :
  pending rid1 st = Some (GetLayers b1 ls1) ->
  pending rid2 st = Some (GetLayers b2 ls2) ->
  rid1 < rid2 ->
  (forall e rid r, pending rid st = Some r -> (forall o, e <> Settle rid o) ->
                   pending rid (step e st) = Some r) /\
  gisLayers (react (run [Settle rid2 (Resolved d2); Settle rid1 (Resolved d1)] st))
  = d1.
Proof.
  intros H1 H2 Hlt. split.
  - intros e rid r Hp Hne. now apply step_keeps_pending.
  - cbn [run fold_left].
    assert (Hp : pending rid1 (step (Settle rid2 (Resolved d2)) st)
                 = Some (GetLayers b1 ls1)).
    { apply step_keeps_pending; [exact H1|].
      intros o Heq. injection Heq as Heq _. lia. }
    now rewrite (settle_layers_resolved _ _ _ _ _ Hp).
Qed.

Lemma last_response_wins_witness :
  let st := run Samples.layer_change_trace (initial Samples.inputs0) in
  gisLayers
    (react (run [Settle 5 (Resolved (DLayers []));
                 Settle 4 (Resolved (DLayers [{| layer_type := "parcels";
                                                 features := Some [1] |}]))]
              st))
  = DLayers [{| layer_type := "parcels"; features := Some [1] |}].
Proof.
  intros st.
  refine (proj2 (last_response_wins st 4 5
            (bbox_of Samples.dubai_bounds) (bbox_of Samples.dubai_bounds)
            ["parcels"] ["parcels"; "zoning"] _ _ _ _ _)).
  - vm_compute. reflexivity.
  - vm_compute. reflexivity.
  - lia.
Defined.

(** *** Rejected calls *)


(** The rejection of a viewport GIS fetch reaches no handler: the component
    state stays as the effect left it, [gisLoading] included. *)
Lemma rejected_layers_unhandled st rid b ls e :
  pending rid st = Some (GetLayers b ls) ->
  let st' := step (Settle rid (Rejected e)) st in
  unhandled (host st') = unhandled (host st) ++ [e] /\
  react st' = react st /\
  console (host st') = console (host st).
Proof. intros Hp. simpl. rewrite Hp. repeat split. Qed.


(** *** The marker timer follows the bounds *)

Lemma view_le_refl st : marker_view_le st st.
Proof. repeat split; auto. Qed.

Lemma view_le_frame (f : State -> State) :
  (forall s, marker_timers (f s) = marker_timers s /\
             marker_cleanup (host (f s)) = marker_cleanup (host s) /\
             mapBounds (react (f s)) = mapBounds (react s)) ->
  forall st0 st, marker_view_le st0 st -> marker_view_le st0 (f st).
Proof.
  intros Hf st0 st (Ht & Hc & Hb). destruct (Hf st) as (Ht' & Hc' & Hb').
  repeat split; [rewrite Ht'; exact Ht | congruence | congruence].
Qed.

Lemma view_le_setTimeout_layers b ls d st0 st :
  marker_view_le st0 st ->
  marker_view_le st0 (setTimeout (CallGetLayers b ls) d st).
Proof.
  apply view_le_frame. intros s. repeat split.
  unfold marker_timers. simpl. rewrite List.filter_app. simpl.
  apply app_nil_r.
Qed.

Lemma view_le_remove_inflight rid st0 st :
  marker_view_le st0 st -> marker_view_le st0 (remove_inflight rid st).
Proof. apply view_le_frame. intros s. repeat split. Qed.

(** One step of a frame proof: peel the outermost state update. *)
Ltac view_prim :=
  match goal with
  | |- marker_view_le _ (?f ?s) =>
      apply (view_le_frame f); [intros ?; repeat split; reflexivity|]
  end.

Ltac view_le :=
  repeat first [ assumption | apply view_le_refl
               | apply view_le_setTimeout_layers | view_prim ].

Lemma view_le_gis_effect st0 st :
  marker_view_le st0 st -> marker_view_le st0 (gis_effect st).
Proof. intros H. unfold gis_effect. effect_cases; view_le. Qed.

Lemma view_le_emirates_effect st0 st :
  marker_view_le st0 st -> marker_view_le st0 (emirates_effect st).
Proof. intros H. unfold emirates_effect. effect_cases; view_le. Qed.

Lemma view_le_areas_effect st0 st :
  marker_view_le st0 st -> marker_view_le st0 (areas_effect st).
Proof. intros H. unfold areas_effect. effect_cases; view_le. Qed.

Lemma view_le_property_gis_effect st0 st :
  marker_view_le st0 st -> marker_view_le st0 (property_gis_effect st).
Proof. intros H. unfold property_gis_effect. effect_cases; view_le. Qed.

Lemma view_le_initialized_effects st0 st :
  marker_view_le st0 st -> marker_view_le st0 (initialized_effects st).
Proof.
  intros H. unfold initialized_effects.
  now apply view_le_property_gis_effect, view_le_gis_effect,
    view_le_areas_effect, view_le_emirates_effect.
Qed.

Lemma view_le_continue r o st0 st :
  marker_view_le st0 st -> marker_view_le st0 (continue r o st).
Proof.
  intros H. destruct r, o; simpl; view_le.
  destruct (gisInitialized (react st)); [assumption|].
  apply view_le_initialized_effects. view_le.
Qed.

Lemma view_le_fire t st0 st :
  marker_view_le st0 st -> marker_view_le st0 (fire t st).
Proof. intros H. unfold fire. effect_cases; view_le. Qed.

Lemma view_le_fold_fire ts : forall st0 st,
  marker_view_le st0 st ->
  marker_view_le st0 (fold_left (fun s t => fire t s) ts st).
Proof.
  induction ts as [|t ts IH]; intros st0 st H; [exact H|].
  simpl. apply IH. now apply view_le_fire.
Qed.

Lemma view_le_tick st : marker_view_le st (tick st).
Proof.
  unfold tick. apply view_le_fold_fire. repeat split.
  intros t. unfold marker_timers. simpl.
  rewrite !filter_In. intros [Hin Hm]. split; [|exact Hm].
  apply list_elem_of_In in Hin. apply list_elem_of_filter in Hin as [_ Hin].
  now apply list_elem_of_In.
Qed.

Lemma current_tracked st : marker_timer_current st -> marker_timer_tracked st.
Proof. intros H t Ht. now destruct (H t Ht). Qed.

Lemma view_le_current st st' :
  marker_view_le st st' -> marker_timer_current st -> marker_timer_current st'.
Proof.
  intros (Ht & Hc & Hb) H t Hin. rewrite Hc, Hb. apply H, Ht, Hin.
Qed.

Lemma tracked_setMapBounds v st :
  marker_timer_tracked st -> marker_timer_tracked (setMapBounds v st).
Proof. intros H t Hin. exact (H t Hin). Qed.

Lemma tracked_set_loadPropertyMarkers v st :
  marker_timer_tracked st -> marker_timer_tracked (set_loadPropertyMarkers v st).
Proof. intros H t Hin. exact (H t Hin). Qed.

(** After its cleanup the marker effect finds no marker timer pending. *)
Lemma marker_cleanup_clears st :
  marker_timer_tracked st ->
  forall t,
    ~ In t (marker_timers
              match marker_cleanup (host st) with
              | Some i => clearTimeout i st
              | None => st
              end).
Proof.
  intros H t Hin. destruct (marker_cleanup (host st)) as [i|] eqn:Hc.
  - unfold marker_timers in Hin. simpl in Hin.
    apply filter_In in Hin as [Hin Hm].
    apply list_elem_of_In, list_elem_of_filter in Hin as [Hne Hin].
    assert (Ht : In t (marker_timers st)).
    { apply filter_In. split; [now apply list_elem_of_In | exact Hm]. }
    apply H in Ht. rewrite Hc in Ht. injection Ht as ->. now apply Hne.
  - apply H in Hin. rewrite Hc in Hin. discriminate.
Qed.

(** Whatever changed the bounds, after the marker effect ran the only marker
    timer pending is the one for the current bounds. *)
Lemma marker_effect_current st :
  marker_timer_tracked st -> marker_timer_current (marker_effect st).
Proof.
  intros H. pose proof (marker_cleanup_clears st H) as Hclear.
  unfold marker_effect.
  set (st1 := match marker_cleanup (host st) with
              | Some i => clearTimeout i st
              | None => st
              end) in *.
  destruct (mapBounds (react st1)) as [b|] eqn:Hb.
  - destruct (loadPropertyMarkers (inputs st1)).
    + intros t Hin. unfold marker_timers in Hin. simpl in Hin.
      rewrite List.filter_app in Hin. apply in_app_or in Hin as [Hin|Hin].
      * now elim (Hclear t).
      * simpl in Hin. destruct Hin as [<-|[]]. simpl. eauto.
    + intros t Hin. now elim (Hclear t).
  - intros t Hin. now elim (Hclear t).
Qed.

Lemma bounds_effects_current st :
  marker_timer_tracked st -> marker_timer_current (bounds_effects st).
Proof.
  intros H. unfold bounds_effects.
  eapply view_le_current; [|apply marker_effect_current, H].
  apply view_le_gis_effect, view_le_refl.
Qed.

Lemma recompute_effect_current st :
  marker_timer_current st -> marker_timer_current (recompute_effect st).
Proof.
  intros H. unfold recompute_effect.
  destruct (recompute _ _); [|exact H].
  now apply bounds_effects_current, tracked_setMapBounds, current_tracked.
Qed.

(** The invariant holds in every state the component reaches. *)
Lemma step_current e st :
  marker_timer_current st -> marker_timer_current (step e st).
Proof.
  intros H.
  destruct e as [|pm|pd|b|ls|b|show|show|em|em| |rid o]; simpl.
  - apply recompute_effect_current.
    eapply view_le_current; [|apply marker_effect_current, current_tracked].
    + apply view_le_property_gis_effect, view_le_gis_effect, view_le_refl.
    + eapply view_le_current; [|exact H].
      apply view_le_areas_effect, view_le_emirates_effect.
      unfold initialize_effect. view_le.
  - apply recompute_effect_current.
    eapply view_le_current; [|exact H]. view_le.
  - eapply view_le_current; [|exact H].
    apply view_le_property_gis_effect. view_le.
  - destruct (Bool.eqb _ _); [exact H|].
    now apply marker_effect_current, tracked_set_loadPropertyMarkers,
      current_tracked.
  - eapply view_le_current; [|exact H]. apply view_le_gis_effect. view_le.
  - now apply bounds_effects_current, tracked_setMapBounds, current_tracked.
  - destruct (Bool.eqb _ _); [exact H|].
    eapply view_le_current; [|exact H]. apply view_le_emirates_effect. view_le.
  - destruct (Bool.eqb _ _); [exact H|].
    eapply view_le_current; [|exact H]. apply view_le_areas_effect. view_le.
  - destruct (String.eqb _ _); [exact H|].
    eapply view_le_current; [|exact H]. apply view_le_areas_effect. view_le.
  - destruct (_ && _); [exact H|].
    eapply view_le_current; [|exact H]. apply view_le_areas_effect. view_le.
  - eapply view_le_current; [apply view_le_tick | exact H].
  - destruct (pending rid st); [|exact H].
    eapply view_le_current; [|exact H].
    apply view_le_continue, view_le_remove_inflight, view_le_refl.
Qed.

Lemma initial_current i : marker_timer_current (initial i).
Proof. intros t []. Qed.

Lemma run_current evs : forall st,
  marker_timer_current st -> marker_timer_current (run evs st).
Proof.
  induction evs as [|e evs IH]; intros st H; [exact H|].
  apply IH, step_current, H.
Qed.

(** *** Bounds-based fetches are issued by timers only *)

Lemma no_fetch_refl st : no_fetch st st.
Proof. split; reflexivity. Qed.

Lemma no_fetch_frame (f : State -> State) :
  (forall s, marker_calls (host (f s)) = marker_calls (host s) /\
             layer_fetches (f s) = layer_fetches s) ->
  forall st0 st, no_fetch st0 st -> no_fetch st0 (f st).
Proof.
  intros Hf st0 st [Hm Hl]. destruct (Hf st) as [Hm' Hl'].
  split; congruence.
Qed.

Lemma no_fetch_call_service r st0 st :
  (forall n, is_GetLayers (n, r) = false) ->
  no_fetch st0 st -> no_fetch st0 (call_service r st).
Proof.
  intros Hr. apply no_fetch_frame. intros s. split; [reflexivity|].
  unfold layer_fetches. simpl. rewrite List.filter_app. simpl.
  rewrite Hr. apply app_nil_r.
Qed.

Ltac no_fetch_prim :=
  match goal with
  | |- no_fetch _ (?f ?s) =>
      apply (no_fetch_frame f); [intros ?; split; reflexivity|]
  end.

Ltac no_fetch :=
  repeat first [ assumption | apply no_fetch_refl
               | apply no_fetch_call_service; [reflexivity|]
               | no_fetch_prim ].

Lemma no_fetch_marker_effect st0 st :
  no_fetch st0 st -> no_fetch st0 (marker_effect st).
Proof. intros H. unfold marker_effect. effect_cases; no_fetch. Qed.

Lemma no_fetch_gis_effect st0 st :
  no_fetch st0 st -> no_fetch st0 (gis_effect st).
Proof. intros H. unfold gis_effect. effect_cases; no_fetch. Qed.

Lemma no_fetch_emirates_effect st0 st :
  no_fetch st0 st -> no_fetch st0 (emirates_effect st).
Proof. intros H. unfold emirates_effect. effect_cases; no_fetch. Qed.

Lemma no_fetch_areas_effect st0 st :
  no_fetch st0 st -> no_fetch st0 (areas_effect st).
Proof. intros H. unfold areas_effect. effect_cases; no_fetch. Qed.

Lemma no_fetch_property_gis_effect st0 st :
  no_fetch st0 st -> no_fetch st0 (property_gis_effect st).
Proof. intros H. unfold property_gis_effect. effect_cases; no_fetch. Qed.

Lemma no_fetch_bounds_effects st0 st :
  no_fetch st0 st -> no_fetch st0 (bounds_effects st).
Proof.
  intros H. now apply no_fetch_gis_effect, no_fetch_marker_effect.
Qed.

Lemma no_fetch_recompute_effect st0 st :
  no_fetch st0 st -> no_fetch st0 (recompute_effect st).
Proof.
  intros H. unfold recompute_effect. destruct (recompute _ _); [|exact H].
  apply no_fetch_bounds_effects. no_fetch.
Qed.

Lemma no_fetch_initialized_effects st0 st :
  no_fetch st0 st -> no_fetch st0 (initialized_effects st).
Proof.
  intros H. unfold initialized_effects.
  now apply no_fetch_property_gis_effect, no_fetch_gis_effect,
    no_fetch_areas_effect, no_fetch_emirates_effect.
Qed.

Lemma no_fetch_continue r o st0 st :
  no_fetch st0 st -> no_fetch st0 (continue r o st).
Proof.
  intros H. destruct r, o; simpl; no_fetch.
  destruct (gisInitialized (react st)); [assumption|].
  apply no_fetch_initialized_effects. no_fetch.
Qed.

(** No event but the passing of time issues a marker fetch or a viewport GIS
    fetch: a change of the bounds only sets timers. *)
Lemma no_fetch_outside_tick e st : e <> Tick -> no_fetch st (step e st).
Proof.
  intros Hne.
  destruct e as [|pm|pd|b|ls|b|show|show|em|em| |rid o]; simpl;
    try congruence.
  - apply no_fetch_recompute_effect, no_fetch_property_gis_effect,
      no_fetch_gis_effect, no_fetch_marker_effect, no_fetch_areas_effect,
      no_fetch_emirates_effect.
    unfold initialize_effect. no_fetch.
  - apply no_fetch_recompute_effect. no_fetch.
  - apply no_fetch_property_gis_effect. no_fetch.
  - destruct (Bool.eqb _ _); [apply no_fetch_refl|].
    apply no_fetch_marker_effect. no_fetch.
  - apply no_fetch_gis_effect. no_fetch.
  - apply no_fetch_bounds_effects. no_fetch.
  - destruct (Bool.eqb _ _); [apply no_fetch_refl|].
    apply no_fetch_emirates_effect. no_fetch.
  - destruct (Bool.eqb _ _); [apply no_fetch_refl|].
    apply no_fetch_areas_effect. no_fetch.
  - destruct (String.eqb _ _); [apply no_fetch_refl|].
    apply no_fetch_areas_effect. no_fetch.
  - destruct (_ && _); [apply no_fetch_refl|].
    apply no_fetch_areas_effect. no_fetch.
  - destruct (pending rid st); [|apply no_fetch_refl].
    apply no_fetch_continue. no_fetch.
Qed.

Lemma marker_effect_now st : now (host (marker_effect st)) = now (host st).
Proof. unfold marker_effect. effect_cases; reflexivity. Qed.

(** A timer set by the marker effect fires 300 ms later. *)
Lemma marker_effect_delay st t :
  In t (timers (host (marker_effect st))) ->
  In t (timers (host st)) \/
  (is_marker_timer t = true /\ due t = now (host st) + 300).
Proof.
  unfold marker_effect.
  set (st1 := match marker_cleanup (host st) with
              | Some i => clearTimeout i st
              | None => st
              end).
  assert (Hsub : forall u, In u (timers (host st1)) -> In u (timers (host st))).
  { intros u. subst st1. destruct (marker_cleanup (host st)); [|tauto].
    simpl. intros Hu.
    apply list_elem_of_In, list_elem_of_filter in Hu as [_ Hu].
    now apply list_elem_of_In. }
  assert (Hnow : now (host st1) = now (host st))
    by (subst st1; destruct (marker_cleanup (host st)); reflexivity).
  destruct (mapBounds (react st1)); [destruct (loadPropertyMarkers _)|];
    simpl; auto.
  rewrite in_app_iff. simpl. intros [H|[<-|[]]]; auto.
  right. simpl. now rewrite Hnow.
Qed.

(** A timer set by the viewport GIS effect fires 500 ms later. *)
Lemma gis_effect_delay st t :
  In t (timers (host (gis_effect st))) ->
  In t (timers (host st)) \/
  (is_marker_timer t = false /\ due t = now (host st) + 500).
Proof.
  unfold gis_effect. effect_cases; simpl; auto.
  rewrite in_app_iff. simpl. intros [H|[<-|[]]]; auto.
Qed.



(** C2 (the code at the failing input). The timer of the viewport GIS
    fetch is never cleared: a change of the enabled layers 100 ms after the
    bounds were set leaves the first timer running, so two layer fetches go
    out for the one bounds value (at 500 and 600 ms); likewise, when the
    bounds change again after 100 ms the marker fetch for the first bounds is
    dropped, but the layer fetch for them still goes out. *)
Theorem viewport_fetch_not_debounced :
  let st := run Samples.layer_change_trace (initial Samples.inputs0) in
  let st' := run Samples.bounds_change_trace (initial Samples.inputs0) in
  (mapBounds (react st) = Some Samples.dubai_bounds /\
   marker_calls (host st) = [(300, marker_params Samples.dubai_bounds)] /\
   layer_fetches st
   = [(500, GetLayers (bbox_of Samples.dubai_bounds) ["parcels"]);
      (600, GetLayers (bbox_of Samples.dubai_bounds) ["parcels"; "zoning"])])
  /\
  (mapBounds (react st') = Some Samples.abu_dhabi_bounds /\
   marker_calls (host st') = [(400, marker_params Samples.abu_dhabi_bounds)] /\
   layer_fetches st'
   = [(500, GetLayers (bbox_of Samples.dubai_bounds) ["parcels"]);
      (600, GetLayers (bbox_of Samples.abu_dhabi_bounds) ["parcels"])]).
Proof. vm_compute. repeat split. Qed.

(** *** Rendering gate and layer toggle *)

Lemma includes_In l x : includes l x = true <-> In x l.
Proof.
  unfold includes. rewrite existsb_exists. split.
  - intros (y & Hy & Heq). apply String.eqb_eq in Heq. now subst.
  - intros H. exists x. split; [exact H | apply String.eqb_refl].
Qed.

Lemma includes_not_In l x : includes l x = false <-> ~ In x l.
Proof.
  rewrite <- includes_In. destruct (includes l x); split; congruence.
Qed.

(** A fetched layer is rendered only if its type is in the enabled list. *)
Lemma rendered_layer_enabled st t :
  In t (rendered_gis_layers st) ->
  exists enabled, enabledGisLayers (inputs st) = Some enabled /\ In t enabled.
Proof.
  unfold rendered_gis_layers.
  destruct (gisLayers (react st)) as [| | |ls|]; try (intros []).
  destruct (enabledGisLayers (inputs st)) as [enabled|]; [|intros []].
  intros Hin. exists enabled. split; [reflexivity|].
  apply list_elem_of_In, list_elem_of_omap in Hin as (l & _ & Hl).
  destruct (features l) as [[|f fs]|]; try discriminate.
  destruct (includes enabled (layer_type l)) eqn:Hi; [|discriminate].
  injection Hl as <-. now apply includes_In.
Qed.

Lemma onToggleLayer_In enabled layer x :
  In x (onToggleLayer enabled layer) <->
  (x <> layer /\ In x enabled) \/ (x = layer /\ ~ In layer enabled).
Proof.
  unfold onToggleLayer. destruct (includes enabled layer) eqn:Hi.
  - apply includes_In in Hi.
    rewrite <- list_elem_of_In, list_elem_of_filter, list_elem_of_In.
    split; [intros [? ?]; now left | intros [[? ?]|[? ?]]; tauto].
  - apply includes_not_In in Hi. rewrite in_app_iff. simpl.
    split.
    + intros [H|[<-|[]]]; [left|right]; [|tauto].
      split; [intros ->; contradiction | exact H].
    + intros [[? ?]|[-> ?]]; auto.
Qed.

Lemma onToggleLayer_twice enabled layer x :
  In x (onToggleLayer (onToggleLayer enabled layer) layer) <-> In x enabled.
Proof.
  rewrite !onToggleLayer_In.
  destruct (String.eqb_spec x layer) as [->|Hne]; [|tauto].
  destruct (includes enabled layer) eqn:Hi;
    [apply includes_In in Hi | apply includes_not_In in Hi]; tauto.
Qed.

End LeafletProps.

(** ** The Google map component *)

Module GoogleProps.

Import Google.

(** *** Selection *)

Lemma loadGisLayers_selection svc st :
  ui (gis_layers_effect svc st) = ui st /\
  ctx (gis_layers_effect svc st) = ctx st.
Proof.
  unfold gis_layers_effect, loadGisLayers.
  assert (Hfold : forall en bb ts s,
            ui (fold_left (load_layer svc en bb) ts s) = ui s /\
            ctx (fold_left (load_layer svc en bb) ts s) = ctx s).
  { intros en bb ts. induction ts as [|t ts IH]; intros s; [tauto|].
    simpl. destruct (IH (load_layer svc en bb s t)) as [-> ->].
    unfold load_layer, drop_layer.
    destruct (gisLayersRef (refs s) !! t), (includes en t); simpl;
      try tauto; destruct (svc t bb); tauto. }
  repeat match goal with
         | |- context [if ?c then _ else _] => destruct c
         | |- context [match ?x with _ => _ end] => destruct x
         end; auto.
Qed.

Lemma step_selection_agrees svc e st :
  selection_agrees st -> selection_agrees (step svc e st).
Proof.
  unfold selection_agrees. intros H.
  destruct e as [p| |show|show|em|name captured|layerId]; simpl; trivial.
  - unfold handleToggleEmirates. destruct show, (showAreas (ui st)); exact H.
  - unfold handleToggleAreas. destruct show, (showEmirates (ui st)); exact H.
  - unfold emirate_layer_click. destruct captured; exact H.
  - destruct (loadGisLayers_selection svc (handleToggleLayer layerId st))
      as [-> ->]. exact H.
Qed.

(** C5. At most one property is selected at any time: a marker click sets
    the selected property and the selected property id to the clicked
    property, closing the info window clears both to null, and after any
    sequence of events the two name the same property or are both null; a
    marker click on the Leaflet map hands at most the one clicked id to
    [selectProperty]. *)
Theorem at_most_one_selected (svc : service) (m : GMap) (mode : string)
    (evs : list event) (p : Property) (pid : value) (f : bool) :
  let st := run svc evs (ready m mode) in
  selection_agrees st /\
  (selectedProperty (ui (step svc (MarkerClick p) st)) = Some p /\
   selectedPropertyId (ctx (step svc (MarkerClick p) st)) = id p) /\
  (selectedProperty (ui (step svc InfoWindowClose st)) = None /\
   selectedPropertyId (ctx (step svc InfoWindowClose st)) = VNull) /\
  Leaflet.handleMarkerClick pid f
  = if truthy pid && f then Some pid else None.
Proof.
  intros st. split; [|repeat split].
  subst st. generalize (ready m mode), (eq_refl : selection_agrees (ready m mode)).
  induction evs as [|e evs IH]; intros s Hs; [exact Hs|].
  apply IH, step_selection_agrees, Hs.
Qed.

(** *** Display toggles *)

Lemma toggle_sets_mode svc e st :
  is_display_toggle e = true ->
  mapMode (ctx (step svc e st))
  = mode_of (showEmirates (ui (step svc e st))) (showAreas (ui (step svc e st))).
Proof.
  destruct e as [p| |show|show|em|name captured|layerId]; try discriminate; intros _;
    simpl.
  - unfold handleToggleEmirates.
    destruct show, (showAreas (ui st)) eqn:Ha; simpl; rewrite ?Ha; reflexivity.
  - unfold handleToggleAreas.
    destruct show, (showEmirates (ui st)) eqn:He; simpl; rewrite ?He;
      reflexivity.
Qed.

(** C9. After any sequence of emirates/areas display toggles on the Google
    map, the map mode is the one that belongs to the pair of display flags:
    'hybrid' exactly when both are shown, 'emirates' when only emirates,
    'areas' when only areas, 'properties' when neither. *)
Theorem mode_follows_toggles (svc : service) (st : State) (evs : list event) :
  evs <> [] ->
  Forall (fun e => is_display_toggle e = true) evs ->
  let st' := run svc evs st in
  mapMode (ctx st') = mode_of (showEmirates (ui st')) (showAreas (ui st')) /\
  (mapMode (ctx st') = "hybrid" <->
     showEmirates (ui st') = true /\ showAreas (ui st') = true) /\
  (mapMode (ctx st') = "emirates" <->
     showEmirates (ui st') = true /\ showAreas (ui st') = false) /\
  (mapMode (ctx st') = "areas" <->
     showEmirates (ui st') = false /\ showAreas (ui st') = true) /\
  (mapMode (ctx st') = "properties" <->
     showEmirates (ui st') = false /\ showAreas (ui st') = false).
Proof.
  intros Hne Hall st'.
  assert (Hm : mapMode (ctx st')
               = mode_of (showEmirates (ui st')) (showAreas (ui st'))).
  { subst st'. destruct (exists_last Hne) as (evs' & e & ->).
    unfold run. rewrite fold_left_app. simpl.
    apply toggle_sets_mode.
    apply Forall_app in Hall as [_ Hall]. now inversion Hall. }
  split; [exact Hm|]. rewrite Hm.
  destruct (showEmirates (ui st')), (showAreas (ui st')); simpl;
    repeat split; intros; try tauto; try discriminate;
    match goal with H : _ /\ _ |- _ => destruct H; discriminate end.
Qed.

Lemma mode_follows_toggles_witness :
  let st' := run Samples.gis_ok
               [ToggleEmirates true; ToggleAreas true; ToggleEmirates false]
               (ready Samples.viewport "properties") in
  mapMode (ctx st') = "areas" /\
  showEmirates (ui st') = false /\ showAreas (ui st') = true.
Proof.
  intros st'.
  destruct (mode_follows_toggles Samples.gis_ok
              (ready Samples.viewport "properties")
              [ToggleEmirates true; ToggleAreas true; ToggleEmirates false])
    as (Hm & _); [discriminate | repeat constructor |].
  split; [exact Hm | split; reflexivity].
Defined.

(** *** The layer toggle *)

Lemma handleToggleLayer_enabled layerId st :
  enabledLayers (ui (handleToggleLayer layerId st))
  = Leaflet.onToggleLayer (enabledLayers (ui st)) layerId.
Proof. reflexivity. Qed.

(** C10. Toggling a GIS layer id removes the id if it is present and
    appends it if it is absent, so membership is flipped, and toggling the
    same id twice gives a list with exactly the original ids; this holds for
    the Google map's handler and for the Leaflet panel's callback. *)
Theorem toggle_layer_self_inverse (st : State) (l : list string)
    (layerId x : string) :
  let once := enabledLayers (ui (handleToggleLayer layerId st)) in
  let twice :=
    enabledLayers (ui (handleToggleLayer layerId (handleToggleLayer layerId st))) in
  (In layerId (enabledLayers (ui st)) ->
     once = filter (fun i => i <> layerId) (enabledLayers (ui st))) /\
  (~ In layerId (enabledLayers (ui st)) ->
     once = enabledLayers (ui st) ++ [layerId]) /\
  (In layerId once <-> ~ In layerId (enabledLayers (ui st))) /\
  (In x twice <-> In x (enabledLayers (ui st))) /\
  (In layerId (Leaflet.onToggleLayer l layerId) <-> ~ In layerId l) /\
  (In x (Leaflet.onToggleLayer (Leaflet.onToggleLayer l layerId) layerId)
   <-> In x l).
Proof.
  intros once twice. subst once twice.
  rewrite !handleToggleLayer_enabled.
  assert (Hflip : forall l', In layerId (Leaflet.onToggleLayer l' layerId)
                             <-> ~ In layerId l')
    by (intros l'; rewrite LeafletProps.onToggleLayer_In; tauto).
  repeat split; try apply Hflip; try apply LeafletProps.onToggleLayer_twice.
  - intros Hin. apply LeafletProps.includes_In in Hin.
    unfold Leaflet.onToggleLayer. now rewrite Hin.
  - intros Hin. apply LeafletProps.includes_not_In in Hin.
    unfold Leaflet.onToggleLayer. now rewrite Hin.
Qed.

(** *** The pass over the layer types *)










(** Every request of a pass carries the bounding box read at its start. *)
Lemma pass_requests svc en bb ts : forall st,
  exists new,
    gis_requests (refs (fold_left (load_layer svc en bb) ts st))
    = gis_requests (refs st) ++ new /\
    forall c, In c new -> snd c = bb /\ In (fst c) ts /\ In (fst c) en.
Proof.
  induction ts as [|t ts IH]; intros st.
  - exists []. split; [now rewrite app_nil_r | intros c []].
  - simpl. destruct (IH (load_layer svc en bb st t)) as (new & Heq & Hnew).
    rewrite Heq.
    assert (Hstep : exists new0,
              gis_requests (refs (load_layer svc en bb st t))
              = gis_requests (refs st) ++ new0 /\
              forall c, In c new0 -> c = (t, bb) /\ In t en).
    { unfold load_layer, drop_layer.
      destruct (includes en t) eqn:Hen; simpl.
      - apply LeafletProps.includes_In in Hen. exists [(t, bb)].
        split; [|intros c [<-|[]]; auto].
        destruct (gisLayersRef (refs st) !! t), (svc t bb); reflexivity.
      - exists []. split; [|intros c []].
        destruct (gisLayersRef (refs st) !! t); simpl; now rewrite app_nil_r. }
    destruct Hstep as (new0 & -> & Hnew0).
    exists (new0 ++ new). split; [now rewrite app_assoc|].
    intros c Hc. apply in_app_or in Hc as [Hc|Hc].
    + destruct (Hnew0 c Hc) as [-> Ht]. simpl. auto.
    + destruct (Hnew c Hc) as (? & ? & ?). auto.
Qed.

Lemma loadGisLayers_requests svc st m bounds :
  mapRef (refs st) = Some m -> getBounds m = Some bounds ->
  exists new,
    gis_requests (refs (loadGisLayers svc st)) = gis_requests (refs st) ++ new /\
    forall c, In c new ->
      snd c = {| north := ll_lat (getNorthEast bounds);
                 east := ll_lng (getNorthEast bounds);
                 south := ll_lat (getSouthWest bounds);
                 west := ll_lng (getSouthWest bounds) |} /\
      In (fst c) (enabledLayers (ui st)).
Proof.
  intros Hm Hb. unfold loadGisLayers. rewrite Hm, Hb.
  destruct (pass_requests svc (enabledLayers (ui st)) (boundingBox_of bounds)
              layer_types st) as (new & Heq & Hnew).
  exists new. split; [exact Heq|].
  intros c Hc. destruct (Hnew c Hc) as (? & _ & ?). auto.
Qed.



(** *** Overlays and the enabled set *)






(** C6 (the code at the failing input). The user enables the parcels layer
    and disables it again: the list of enabled layers is empty, so the
    effect skips the pass, and the parcels overlay stays on the map. *)
Theorem disabled_last_layer_stays :
  let st1 := run Samples.gis_ok [ToggleLayer "parcels"]
               (ready Samples.viewport "properties") in
  let st2 := run Samples.gis_ok [ToggleLayer "parcels"; ToggleLayer "parcels"]
               (ready Samples.viewport "properties") in
  overlay_present "parcels" st1 /\
  enabledLayers (ui st2) = [] /\
  overlay_present "parcels" st2 /\
  onMap (refs st2) = onMap (refs st1).
Proof.
  assert (H : onMap (refs (run Samples.gis_ok [ToggleLayer "parcels"]
                             (ready Samples.viewport "properties")))
              = [{| lid := 0; ltype := "parcels"; lfeatures := [1; 2];
                    lstyle := layerStyle "parcels" |}])
    by (vm_compute; reflexivity).
  assert (H2 : onMap (refs (run Samples.gis_ok
                              [ToggleLayer "parcels"; ToggleLayer "parcels"]
                              (ready Samples.viewport "properties")))
               = [{| lid := 0; ltype := "parcels"; lfeatures := [1; 2];
                     lstyle := layerStyle "parcels" |}])
    by (vm_compute; reflexivity).
  cbv zeta. split; [|split; [|split]].
  - eexists. rewrite H. split; [now left | reflexivity].
  - reflexivity.
  - eexists. rewrite H2. split; [now left | reflexivity].
  - now rewrite H, H2.
Qed.

(** The sibling path: with another layer still enabled the pass runs and
    takes the disabled layer off the map. *)
Lemma disabled_layer_removed_when_others_enabled :
  let st := run Samples.gis_ok
              [ToggleLayer "parcels"; ToggleLayer "zoning"; ToggleLayer "parcels"]
              (ready Samples.viewport "properties") in
  enabledLayers (ui st) = ["zoning"] /\
  map ltype (onMap (refs st)) = ["zoning"].
Proof. vm_compute. split; reflexivity. Qed.

End GoogleProps.

(** ** Fetches across the two components *)

Section Fetches.

Import Leaflet.



End Fetches.

(** ** The map controller and what the Leaflet component shows *)

Module ViewProps.

Import Leaflet LeafletView Controller.


Lemma render_markers_cons pd p ps :
  render_markers pd (p :: ps) =
  match render_marker pd p with
  | Some m => m :: render_markers pd ps
  | None => render_markers pd ps
  end.
Proof. unfold render_markers. simpl. now destruct (render_marker pd p). Qed.





(** *** The controller's guards *)

Lemma valid_coord_point c : valid_coord c = true <-> is_point c.
Proof.
  split.
  - unfold valid_coord.
    destruct c as [v|items|]; try discriminate.
    destruct items as [|x [|y [|z rest]]]; try discriminate.
    destruct x as [[| | |a|]| |], y as [[| | |b|]| |]; try discriminate.
    intros _. now exists a, b.
  - intros (a & b & ->). reflexivity.
Qed.

Lemma valid_coord_not_point c : valid_coord c = false <-> ~ is_point c.
Proof.
  rewrite <- valid_coord_point. destruct (valid_coord c); split; congruence.
Qed.

Lemma box_valid bounds :
  is_box bounds <->
  exists p q, bounds = JArr [p; q] /\ valid_coord p = true /\
              valid_coord q = true.
Proof.
  split; intros (p & q & -> & Hp & Hq); exists p, q;
    (split; [reflexivity|]); split; now apply valid_coord_point.
Qed.

Lemma bounds_effect_cases (fitBounds : jv -> option error) (bounds : jv) :
  let r := bounds_effect fitBounds bounds in
  (is_box bounds ->
     calls r = [FitBounds bounds (50, 50)%Z] /\
     logged r = match fitBounds bounds with
                | Some e => [("Error fitting bounds:", e)]
                | None => []
                end) /\
  (~ is_box bounds -> calls r = [] /\ logged r = []).
Proof.
  intros r. subst r. split.
  - intros Hb. apply box_valid in Hb as (p & q & -> & Hp & Hq).
    unfold bounds_effect. simpl. rewrite Hp, Hq. simpl. split; reflexivity.
  - intros Hn. unfold bounds_effect.
    destruct bounds as [v|items|]; simpl.
    + destruct (truthy v); simpl; split; reflexivity.
    + destruct items as [|p [|q [|z rest]]]; simpl; try (split; reflexivity).
      destruct (valid_coord p) eqn:Hp, (valid_coord q) eqn:Hq; simpl;
        try (split; reflexivity).
      exfalso. apply Hn, box_valid. now exists p, q.
    + split; reflexivity.
Qed.

Lemma view_effect_cases (center : jv) (zoom : value) :
  (is_point center -> truthy zoom = true ->
     view_effect center zoom = [SetView center zoom]) /\
  (truthy zoom = false -> view_effect center zoom = []) /\
  (~ is_point center -> view_effect center zoom = []).
Proof.
  split; [|split].
  - intros (a & b & ->) Hz. unfold view_effect. simpl. now rewrite Hz.
  - intros Hz. unfold view_effect. rewrite Hz.
    now rewrite andb_false_r.
  - intros Hn. unfold view_effect.
    destruct center as [v|items|]; simpl.
    + now rewrite andb_false_r.
    + destruct (truthy zoom); [|reflexivity]. simpl.
      destruct items as [|x [|y [|z rest]]]; try reflexivity. simpl.
      destruct x as [[| | |a|]| |], y as [[| | |b|]| |]; try reflexivity.
      exfalso. apply Hn. now exists a, b.
    + now rewrite andb_false_r.
Qed.

(** X2. [MapController] calls [fitBounds] exactly when [bounds] is a pair
    of pairs of non-NaN numbers, with the bounds it was given and a padding
    of 50; an exception of [fitBounds] is caught and logged; on any other
    value nothing is called and nothing is logged. *)
Theorem fitBounds_iff_box (fitBounds : jv -> option error) (bounds : jv) :
  let r := bounds_effect fitBounds bounds in
  (calls r = [FitBounds bounds (50, 50)%Z] <-> is_box bounds) /\
  (calls r = [] <-> ~ is_box bounds) /\
  (logged r <> [] <-> is_box bounds /\ fitBounds bounds <> None) /\
  (forall c, In c (logged r) ->
             exists e, fitBounds bounds = Some e /\
                       c = ("Error fitting bounds:", e)).
Proof.
  intros r. destruct (bounds_effect_cases fitBounds bounds) as [Hyes Hno].
  fold r in Hyes, Hno.
  assert (Hdec : is_box bounds \/ ~ is_box bounds).
  { destruct (calls r) eqn:Hc.
    - right. intros Hb. destruct (Hyes Hb) as [H _]. congruence.
    - left. destruct bounds as [v|items|].
      + exfalso. unfold r, bounds_effect in Hc. simpl in Hc.
        rewrite andb_false_r in Hc. discriminate.
      + unfold r, bounds_effect in Hc.
        destruct items as [|p [|q [|z rest]]]; try discriminate.
        simpl in Hc.
        destruct (valid_coord p) eqn:Hp, (valid_coord q) eqn:Hq;
          try discriminate.
        apply box_valid. now exists p, q.
      + discriminate. }
  destruct Hdec as [Hb|Hn].
  - destruct (Hyes Hb) as [Hc Hl]. rewrite Hc, Hl.
    split; [tauto|]. split; [split; [discriminate | tauto]|].
    destruct (fitBounds bounds) as [e|]; split.
    + split; [intros _; split; [exact Hb | discriminate] | discriminate].
    + intros c [<-|[]]. eauto.
    + split; [congruence | intros [_ Hne]; congruence].
    + intros c [].
  - destruct (Hno Hn) as [Hc Hl]. rewrite Hc, Hl.
    split; [split; [discriminate | tauto]|]. split; [tauto|].
    split; [split; [congruence | tauto] | intros c []].
Qed.

(** X3. [MapController] calls [setView] exactly when [center] is a pair of
    non-NaN numbers and [zoom] is truthy, with the values it was given: a
    zoom of 0 (or a missing zoom) moves nothing. *)
Theorem setView_iff_point (center : jv) (zoom : value) :
  (view_effect center zoom = [SetView center zoom] <->
     is_point center /\ truthy zoom = true) /\
  (view_effect center zoom = [] <->
     ~ is_point center \/ truthy zoom = false) /\
  view_effect center (VNum 0) = [].
Proof.
  destruct (view_effect_cases center zoom) as (Hyes & Hz & Hn).
  assert (Hdec : is_point center \/ ~ is_point center).
  { destruct (valid_coord center) eqn:Hv;
      [left; now apply valid_coord_point
      | right; now apply valid_coord_not_point]. }
  split; [|split].
  - split.
    + intros H. destruct (truthy zoom) eqn:Ht.
      * destruct Hdec as [Hp|Hp]; [tauto|]. rewrite (Hn Hp) in H.
        discriminate.
      * rewrite (Hz eq_refl) in H. discriminate.
    + intros [Hp Ht]. now apply Hyes.
  - split.
    + intros H. destruct (truthy zoom) eqn:Ht; [|now right].
      destruct Hdec as [Hp|Hp]; [|now left].
      rewrite (Hyes Hp eq_refl) in H. discriminate.
    + intros [Hp|Ht]; [now apply Hn | now apply Hz].
  - now apply (proj1 (proj2 (view_effect_cases center (VNum 0)))).
Qed.

Lemma center_effect_zoom pd v :
  (mapZoom v = 10 \/ mapZoom v = 16)%Q ->
  (mapZoom (center_effect pd v) = 10 \/ mapZoom (center_effect pd v) = 16)%Q.
Proof.
  intros H. unfold center_effect.
  destruct pd as [[i [[la ln]|]]|]; try exact H.
  destruct la, ln; simpl; auto.
Qed.

(** X4. Whatever sequence of property details the Leaflet component
    receives, the centre and zoom it hands to [MapController] pass the
    controller's guard, so [setView] is called with them; the zoom is 10 or
    16, and selecting a property with valid coordinates centres on it at zoom
    16.  Every bounds value the component holds passes the guard of
    [fitBounds], while the initial null bounds make no call. *)
Theorem controller_accepts_component_view
    (fitBounds : jv -> option error) (pds : list (option Property))
    (b : Bounds) (p : Property) (la ln : Q) :
  let v := fold_left (fun v pd => center_effect pd v) pds view0 in
  view_effect (of_point (mapCenter v)) (VNum (mapZoom v))
  = [SetView (of_point (mapCenter v)) (VNum (mapZoom v))] /\
  (mapZoom v = 10 \/ mapZoom v = 16)%Q /\
  (location p = Some {| lat := VNum la; lng := VNum ln |} ->
   center_effect (Some p) v = {| mapCenter := (la, ln); mapZoom := 16 |}) /\
  calls (bounds_effect fitBounds (of_bounds (Some b)))
  = [FitBounds (of_bounds (Some b)) (50, 50)%Z] /\
  calls (bounds_effect fitBounds (of_bounds None)) = [].
Proof.
  intros v.
  assert (Hz : (mapZoom v = 10 \/ mapZoom v = 16)%Q).
  { subst v. generalize view0, (or_introl eq_refl
       : (mapZoom view0 = 10 \/ mapZoom view0 = 16)%Q).
    induction pds as [|pd pds IH]; intros v0 H0; [exact H0|].
    simpl. apply IH, center_effect_zoom, H0. }
  split; [|split; [exact Hz|split; [|split]]].
  - apply view_effect_cases.
    + now exists (fst (mapCenter v)), (snd (mapCenter v)).
    + destruct Hz as [-> | ->]; reflexivity.
  - intros Hl. unfold center_effect. destruct p as [i l]. simpl in Hl.
    now rewrite Hl.
  - apply bounds_effect_cases. exists (of_point (fst b)), (of_point (snd b)).
    split; [reflexivity|]. split; eexists _, _; reflexivity.
  - reflexivity.
Qed.

End ViewProps.

(** ** More on the Leaflet component *)

Module LeafletMore.

Import Leaflet LeafletObs LeafletProps.

(** *** Timers and their delays *)

Lemma delayed_refl st : delayed st st.
Proof. split; auto. Qed.

Lemma delayed_trans a b c : delayed a b -> delayed b c -> delayed a c.
Proof.
  intros [Hn1 H1] [Hn2 H2]. split; [congruence|].
  intros t Ht. destruct (H2 t Ht) as [Hb|Hb].
  - apply H1, Hb.
  - rewrite Hn1 in Hb. auto.
Qed.

Lemma delayed_frame (f : State -> State) :
  (forall s, now (host (f s)) = now (host s) /\
             timers (host (f s)) = timers (host s)) ->
  forall st0 st, delayed st0 st -> delayed st0 (f st).
Proof.
  intros Hf st0 st H. eapply delayed_trans; [exact H|].
  destruct (Hf st) as [Hn Ht]. split; [exact Hn|]. rewrite Ht. auto.
Qed.

Ltac delayed_prim :=
  match goal with
  | |- delayed _ (?f ?s) =>
      apply (delayed_frame f); [intros ?; split; reflexivity|]
  end.

Ltac delayed := repeat first [ assumption | apply delayed_refl | delayed_prim ].

Lemma delayed_marker_effect st0 st :
  delayed st0 st -> delayed st0 (marker_effect st).
Proof.
  intros H. eapply delayed_trans; [exact H|].
  split; [apply marker_effect_now|].
  intros t Ht. destruct (marker_effect_delay st t Ht); auto.
Qed.

Lemma delayed_gis_effect st0 st :
  delayed st0 st -> delayed st0 (gis_effect st).
Proof.
  intros H. eapply delayed_trans; [exact H|].
  split; [unfold gis_effect; effect_cases; reflexivity|].
  intros t Ht. destruct (gis_effect_delay st t Ht); auto.
Qed.

Lemma delayed_emirates_effect st0 st :
  delayed st0 st -> delayed st0 (emirates_effect st).
Proof. intros H. unfold emirates_effect. effect_cases; delayed. Qed.

Lemma delayed_areas_effect st0 st :
  delayed st0 st -> delayed st0 (areas_effect st).
Proof. intros H. unfold areas_effect. effect_cases; delayed. Qed.

Lemma delayed_property_gis_effect st0 st :
  delayed st0 st -> delayed st0 (property_gis_effect st).
Proof. intros H. unfold property_gis_effect. effect_cases; delayed. Qed.

Lemma delayed_bounds_effects st0 st :
  delayed st0 st -> delayed st0 (bounds_effects st).
Proof. intros H. now apply delayed_gis_effect, delayed_marker_effect. Qed.

Lemma delayed_recompute_effect st0 st :
  delayed st0 st -> delayed st0 (recompute_effect st).
Proof.
  intros H. unfold recompute_effect. destruct (recompute _ _); [|exact H].
  apply delayed_bounds_effects. delayed.
Qed.

Lemma delayed_initialized_effects st0 st :
  delayed st0 st -> delayed st0 (initialized_effects st).
Proof.
  intros H. unfold initialized_effects.
  now apply delayed_property_gis_effect, delayed_gis_effect,
    delayed_areas_effect, delayed_emirates_effect.
Qed.

Lemma delayed_continue r o st0 st :
  delayed st0 st -> delayed st0 (continue r o st).
Proof.
  intros H. destruct r, o; simpl; delayed.
  destruct (gisInitialized (react st)); [assumption|].
  apply delayed_initialized_effects. delayed.
Qed.

Lemma delayed_step e st : e <> Tick -> delayed st (step e st).
Proof.
  intros Hne.
  destruct e as [|pm|pd|b|ls|b|show|show|em|em| |rid o]; simpl;
    try congruence.
  - apply delayed_recompute_effect, delayed_property_gis_effect,
      delayed_gis_effect, delayed_marker_effect, delayed_areas_effect,
      delayed_emirates_effect.
    unfold initialize_effect. delayed.
  - apply delayed_recompute_effect. delayed.
  - apply delayed_property_gis_effect. delayed.
  - destruct (Bool.eqb _ _); [apply delayed_refl|].
    apply delayed_marker_effect. delayed.
  - apply delayed_gis_effect. delayed.
  - apply delayed_bounds_effects. delayed.
  - destruct (Bool.eqb _ _); [apply delayed_refl|].
    apply delayed_emirates_effect. delayed.
  - destruct (Bool.eqb _ _); [apply delayed_refl|].
    apply delayed_areas_effect. delayed.
  - destruct (String.eqb _ _); [apply delayed_refl|].
    apply delayed_areas_effect. delayed.
  - destruct (_ && _); [apply delayed_refl|].
    apply delayed_areas_effect. delayed.
  - destruct (pending rid st); [|apply delayed_refl].
    apply delayed_continue. delayed.
Qed.

(** X5. No event other than the passing of time issues a property-marker
    fetch or a viewport GIS fetch: whatever changes (bounds, props, context,
    a response), the component at most sets timers, and each timer it sets is
    due 300 ms later for the marker fetch and 500 ms later for the viewport
    GIS fetch. *)
Theorem bounds_fetches_wait_for_timers (st : State) (e : event) :
  e <> Tick ->
  marker_calls (host (step e st)) = marker_calls (host st) /\
  layer_fetches (step e st) = layer_fetches st /\
  now (host (step e st)) = now (host st) /\
  forall t, In t (timers (host (step e st))) ->
    In t (timers (host st)) \/
    (is_marker_timer t = true /\ due t = now (host st) + 300) \/
    (is_marker_timer t = false /\ due t = now (host st) + 500).
Proof.
  intros Hne.
  destruct (no_fetch_outside_tick e st Hne) as [Hm Hl].
  destruct (delayed_step e st Hne) as [Hn Ht].
  auto.
Qed.

Lemma bounds_fetches_wait_for_timers_witness :
  let st := run [Mount; Settle 0 (Resolved (DBool true))]
              (initial Samples.inputs0) in
  marker_calls (host (step (SetMapBounds Samples.dubai_bounds) st)) = [] /\
  layer_fetches (step (SetMapBounds Samples.dubai_bounds) st) = [].
Proof.
  intros st.
  destruct (bounds_fetches_wait_for_timers st
              (SetMapBounds Samples.dubai_bounds)) as (Hm & Hl & _);
    [discriminate|].
  split; [exact Hm | exact Hl].
Defined.

(** *** The marker timer is restarted *)

Lemma marker_timers_gis_effect st :
  marker_timers (gis_effect st) = marker_timers st.
Proof.
  unfold gis_effect. effect_cases; try reflexivity.
  unfold marker_timers. simpl. rewrite List.filter_app. simpl.
  apply app_nil_r.
Qed.

Lemma no_members_nil {A} (l : list A) : (forall x, ~ In x l) -> l = [].
Proof.
  destruct l as [|x l]; [reflexivity|]. intros H. elim (H x). now left.
Qed.

(** X6. In every state the component reaches, a change of the bounds
    cancels the pending marker timer and sets a new one: afterwards exactly
    one marker timer is pending, it is due in 300 ms and carries the new
    bounds (none is pending when the context offers no loader). *)
Theorem bounds_change_restarts_marker_timer
    (i : Inputs) (evs : list event) (b : Bounds) :
  let st := run evs (initial i) in
  let st' := step (SetMapBounds b) st in
  (loadPropertyMarkers (inputs st) = true ->
   marker_timers st'
   = [{| tid := next_id (host st); due := now (host st) + 300;
         action := CallLoadPropertyMarkers (marker_params b) |}]) /\
  (loadPropertyMarkers (inputs st) = false -> marker_timers st' = []).
Proof.
  intros st st'.
  assert (Htr : marker_timer_tracked (setMapBounds (Some b) st)).
  { apply tracked_setMapBounds, current_tracked, run_current,
      initial_current. }
  pose proof (marker_cleanup_clears _ Htr) as Hclear.
  apply no_members_nil in Hclear.
  subst st'. simpl. unfold bounds_effects. rewrite marker_timers_gis_effect.
  unfold marker_effect.
  set (st1 := match marker_cleanup (host (setMapBounds (Some b) st)) with
              | Some j => clearTimeout j (setMapBounds (Some b) st)
              | None => setMapBounds (Some b) st
              end) in *.
  assert (Hb : mapBounds (react st1) = Some b)
    by (subst st1; destruct (marker_cleanup _); reflexivity).
  assert (Hl : loadPropertyMarkers (inputs st1) = loadPropertyMarkers (inputs st))
    by (subst st1; destruct (marker_cleanup _); reflexivity).
  assert (Hid : next_id (host st1) = next_id (host st))
    by (subst st1; destruct (marker_cleanup _); reflexivity).
  assert (Hnow : now (host st1) = now (host st))
    by (subst st1; destruct (marker_cleanup _); reflexivity).
  rewrite Hb, Hl. split; intros Hload; rewrite Hload.
  - unfold marker_timers in *. simpl. rewrite List.filter_app, Hclear.
    simpl. now rewrite Hid, Hnow.
  - exact Hclear.
Qed.

(** *** Rendering of the fetched layers *)


(** *** Nothing is fetched before the GIS service is up *)

Lemma quiet_refl st : gis_quiet st st.
Proof. intros H. auto. Qed.

Lemma quiet_trans a b c : gis_quiet a b -> gis_quiet b c -> gis_quiet a c.
Proof.
  intros H1 H2 Hc. destruct (H2 Hc) as (Hb & Hs2 & Ht2).
  destruct (H1 Hb) as (Ha & Hs1 & Ht1). split; [exact Ha|]. split.
  - intros x Hx. destruct (Hs2 x Hx); auto.
  - intros x Hx. destruct (Ht2 x Hx); auto.
Qed.

Lemma quiet_frame (f : State -> State) :
  (forall s, gisInitialized (react (f s)) = gisInitialized (react s) /\
             service_calls (host (f s)) = service_calls (host s) /\
             timers (host (f s)) = timers (host s)) ->
  forall st0 st, gis_quiet st0 st -> gis_quiet st0 (f st).
Proof.
  intros Hf st0 st H. eapply quiet_trans; [exact H|].
  destruct (Hf st) as (Hg & Hs & Ht). intros Hc.
  rewrite Hs, Ht. rewrite <- Hg. auto.
Qed.

(** A step that is taken only with the service initialised. *)
Lemma quiet_initialized (f : State -> State) st0 st :
  gisInitialized (react st) = true ->
  gisInitialized (react (f st)) = gisInitialized (react st) ->
  gis_quiet st0 (f st).
Proof. intros Ht Hf Hc. congruence. Qed.

Ltac quiet_prim :=
  match goal with
  | |- gis_quiet _ (?f ?s) =>
      apply (quiet_frame f); [intros ?; repeat split; reflexivity|]
  end.

Ltac quiet := repeat first [ assumption | apply quiet_refl | quiet_prim ].

Lemma quiet_clearTimeout j st0 st :
  gis_quiet st0 st -> gis_quiet st0 (clearTimeout j st).
Proof.
  intros H. eapply quiet_trans; [exact H|]. intros Hc.
  repeat split; auto. intros t Ht. left. simpl in Ht.
  apply list_elem_of_In, list_elem_of_filter in Ht as [_ Ht].
  now apply list_elem_of_In.
Qed.

Lemma quiet_setTimeout_marker p d st0 st :
  gis_quiet st0 st ->
  gis_quiet st0 (setTimeout (CallLoadPropertyMarkers p) d st).
Proof.
  intros H. eapply quiet_trans; [exact H|]. intros Hc.
  repeat split; auto. intros t Ht. simpl in Ht.
  apply in_app_or in Ht as [Ht|[<-|[]]]; auto.
Qed.

Lemma quiet_marker_effect st0 st :
  gis_quiet st0 st -> gis_quiet st0 (marker_effect st).
Proof.
  intros H. unfold marker_effect.
  effect_cases; repeat first [ quiet_prim | apply quiet_setTimeout_marker
                             | apply quiet_clearTimeout | assumption ].
Qed.

Lemma quiet_gis_effect st0 st :
  gis_quiet st0 st -> gis_quiet st0 (gis_effect st).
Proof.
  intros H. unfold gis_effect.
  destruct (mapBounds (react st)); [|exact H].
  destruct (enabledGisLayers (inputs st)); [|exact H].
  destruct (gisInitialized (react st)) eqn:Hg;
    [|now rewrite orb_true_r].
  destruct (length l =? 0)%nat; [exact H|]. simpl.
  intros Hc. simpl in Hc. congruence.
Qed.

Lemma quiet_emirates_effect st0 st :
  gis_quiet st0 st -> gis_quiet st0 (emirates_effect st).
Proof.
  intros H. unfold emirates_effect.
  destruct (gisInitialized (react st)) eqn:Hg; [|exact H].
  destruct (showEmirates (react st)); [|exact H]. simpl.
  intros Hc. simpl in Hc. congruence.
Qed.

Lemma quiet_areas_effect st0 st :
  gis_quiet st0 st -> gis_quiet st0 (areas_effect st).
Proof.
  intros H. unfold areas_effect.
  destruct (gisInitialized (react st)) eqn:Hg; [|exact H].
  destruct (showAreas (react st)); [|exact H]. simpl.
  intros Hc. simpl in Hc. congruence.
Qed.

Lemma quiet_property_gis_effect st0 st :
  gis_quiet st0 st -> gis_quiet st0 (property_gis_effect st).
Proof.
  intros H. unfold property_gis_effect.
  destruct (propertyDetails (inputs st)) as [pd|]; [|exact H].
  destruct (gisInitialized (react st)) eqn:Hg;
    [|now rewrite orb_true_r].
  destruct (truthy (id pd)); [|exact H]. simpl.
  intros Hc. simpl in Hc. congruence.
Qed.

Lemma quiet_bounds_effects st0 st :
  gis_quiet st0 st -> gis_quiet st0 (bounds_effects st).
Proof. intros H. now apply quiet_gis_effect, quiet_marker_effect. Qed.

Lemma quiet_recompute_effect st0 st :
  gis_quiet st0 st -> gis_quiet st0 (recompute_effect st).
Proof.
  intros H. unfold recompute_effect. destruct (recompute _ _); [|exact H].
  apply quiet_bounds_effects. quiet.
Qed.

Lemma quiet_initialize_effect st0 st :
  gis_quiet st0 st -> gis_quiet st0 (initialize_effect st).
Proof.
  intros H. eapply quiet_trans; [exact H|]. intros Hc.
  repeat split; auto. intros c Hin. simpl in Hin.
  apply in_app_or in Hin as [Hin|[<-|[]]]; auto.
Qed.

Lemma quiet_continue r o st0 st :
  gis_quiet st0 st -> gis_quiet st0 (continue r o st).
Proof.
  intros H. destruct r, o; simpl; quiet.
  destruct (gisInitialized (react st)) eqn:Hg; [assumption|].
  intros Hc. exfalso. revert Hc. unfold initialized_effects.
  generalize (setGisInitialized true st),
    (eq_refl : gisInitialized (react (setGisInitialized true st)) = true).
  intros s Hs.
  assert (He : gisInitialized (react (emirates_effect s)) = true)
    by (unfold emirates_effect; effect_cases; exact Hs).
  assert (Ha : gisInitialized (react (areas_effect (emirates_effect s))) = true)
    by (unfold areas_effect; effect_cases; exact He).
  assert (Hgis : gisInitialized
                   (react (gis_effect (areas_effect (emirates_effect s))))
                 = true)
    by (unfold gis_effect; effect_cases; exact Ha).
  unfold property_gis_effect. effect_cases; simpl; congruence.
Qed.

Lemma gated_quiet st st' : gis_quiet st st' -> gis_gated st -> gis_gated st'.
Proof.
  intros Hq Hg Hc. destruct (Hq Hc) as (H0 & Hs & Ht).
  destruct (Hg H0) as [Hgs Hgt]. split.
  - intros c Hin. destruct (Hs c Hin); auto.
  - intros t Hin. destruct (Ht t Hin); auto.
Qed.

Lemma fold_fire_markers_only ts : forall st,
  (forall t, In t ts -> is_marker_timer t = true) ->
  let st' := fold_left (fun s t => fire t s) ts st in
  react st' = react st /\
  service_calls (host st') = service_calls (host st) /\
  timers (host st') = timers (host st).
Proof.
  induction ts as [|t ts IH]; intros st Hall; [simpl; auto|].
  simpl. destruct (IH (fire t st)) as (Hr & Hs & Ht);
    [intros u Hu; apply Hall; now right|].
  rewrite Hr, Hs, Ht.
  assert (Hm : is_marker_timer t = true) by (apply Hall; now left).
  unfold fire, is_marker_timer in *. destruct (action t); [|discriminate].
  auto.
Qed.

Lemma gated_tick st : gis_gated st -> gis_gated (tick st).
Proof.
  intros Hg Hc. unfold tick in *.
  match type of Hc with
  | context [fold_left _ ?ts ?s0] =>
      assert (Hfire : gisInitialized (react s0) = false ->
                forall t, In t ts -> is_marker_timer t = true)
  end.
  { simpl. intros H0 t Ht. destruct (Hg H0) as [_ Hgt]. apply Hgt.
    apply list_elem_of_In, list_elem_of_filter in Ht as [_ Ht].
    now apply list_elem_of_In. }
  assert (H0 : gisInitialized (react st) = false).
  { destruct (gisInitialized (react st)) eqn:Hi; [|reflexivity].
    exfalso. revert Hc.
    match goal with
    | |- context [fold_left _ ?ts ?s0] =>
        assert (Hk : forall l s, gisInitialized (react s) = true ->
                  gisInitialized
                    (react (fold_left (fun s t => fire t s) l s)) = true)
    end.
    { induction l as [|t l IH]; intros s Hs; [exact Hs|]. simpl.
      apply IH. unfold fire. destruct (action t); exact Hs. }
    rewrite Hk; [discriminate | exact Hi]. }
  destruct (Hg H0) as [Hgs Hgt].
  match goal with
  | |- context [fold_left _ ?ts ?s0] =>
      destruct (fold_fire_markers_only ts s0 (Hfire H0)) as (_ & Hs & Ht)
  end.
  cbv zeta in Hs, Ht. rewrite Hs, Ht. simpl. split; [exact Hgs|].
  intros t Hin. apply Hgt.
  apply list_elem_of_In, list_elem_of_filter in Hin as [_ Hin].
  now apply list_elem_of_In.
Qed.

Lemma gated_step e st : gis_gated st -> gis_gated (step e st).
Proof.
  intros Hg.
  destruct e as [|pm|pd|b|ls|b|show|show|em|em| |rid o];
    try (apply gated_tick, Hg);
    (eapply gated_quiet; [|exact Hg]); simpl.
  - apply quiet_recompute_effect, quiet_property_gis_effect,
      quiet_gis_effect, quiet_marker_effect, quiet_areas_effect,
      quiet_emirates_effect, quiet_initialize_effect, quiet_refl.
  - apply quiet_recompute_effect. quiet.
  - apply quiet_property_gis_effect. quiet.
  - destruct (Bool.eqb _ _); [apply quiet_refl|].
    apply quiet_marker_effect. quiet.
  - apply quiet_gis_effect. quiet.
  - apply quiet_bounds_effects. quiet.
  - destruct (Bool.eqb _ _); [apply quiet_refl|].
    apply quiet_emirates_effect. quiet.
  - destruct (Bool.eqb _ _); [apply quiet_refl|].
    apply quiet_areas_effect. quiet.
  - destruct (String.eqb _ _); [apply quiet_refl|].
    apply quiet_areas_effect. quiet.
  - destruct (_ && _); [apply quiet_refl|].
    apply quiet_areas_effect. quiet.
  - destruct (pending rid st); [|apply quiet_refl].
    apply quiet_continue. quiet.
Qed.

(** X7. Until the GIS service has initialised (and for good if its
    initialisation fails) the Leaflet component calls no GIS endpoint: in
    every state it reaches with [gisInitialized] false, every service call
    made so far is an [initialize] call and no viewport GIS timer is
    pending. *)
Theorem no_gis_call_before_initialized (i : Inputs) (evs : list event) :
  let st := run evs (initial i) in
  gisInitialized (react st) = false ->
  (forall c, In c (service_calls (host st)) -> snd c = Initialize) /\
  (forall t, In t (timers (host st)) -> is_marker_timer t = true).
Proof.
  intros st. subst st.
  assert (H0 : gis_gated (initial i)) by (intros _; split; intros ? []).
  revert H0. generalize (initial i).
  induction evs as [|e evs IH]; intros s Hs; [exact Hs|].
  simpl. apply IH, gated_step, Hs.
Qed.

Lemma no_gis_call_before_initialized_witness :
  let st := run [Mount; Settle 0 (Rejected Samples.timeout);
                 ToggleEmirates true;
                 SetPropertyMarkers
                   (Some {| properties := Some Samples.dubai_rows |});
                 SetPropertyDetails (Some Samples.villa)]
              (initial Samples.inputs0) in
  Forall (fun c => snd c = Initialize) (service_calls (host st)).
Proof.
  intros st. apply Forall_forall. intros c Hc. apply list_elem_of_In in Hc.
  revert c Hc.
  refine (proj1 (no_gis_call_before_initialized Samples.inputs0
                   [Mount; Settle 0 (Rejected Samples.timeout);
                    ToggleEmirates true;
                    SetPropertyMarkers
                      (Some {| properties := Some Samples.dubai_rows |});
                    SetPropertyDetails (Some Samples.villa)] _)).
  reflexivity.
Defined.

End LeafletMore.

(** ** More on the Google component *)

Module GoogleMore.

Import Google GoogleObs GoogleProps.

(** *** The list of enabled layers *)

Lemma onToggleLayer_NoDup l x :
  List.NoDup l -> List.NoDup (Leaflet.onToggleLayer l x).
Proof.
  intros Hnd. unfold Leaflet.onToggleLayer.
  destruct (includes l x) eqn:Hi.
  - apply NoDup_ListNoDup, NoDup_filter, NoDup_ListNoDup, Hnd.
  - apply LeafletProps.includes_not_In in Hi.
    apply NoDup_ListNoDup, NoDup_app. repeat split.
    + now apply NoDup_ListNoDup.
    + intros y Hy Hy'. apply list_elem_of_In in Hy.
      apply list_elem_of_In in Hy'. destruct Hy' as [<-|[]]. contradiction.
    + apply NoDup_singleton.
Qed.

Lemma step_ui_layers svc e st :
  enabledLayers (ui (step svc e st)) = enabledLayers (ui st) \/
  exists x, e = ToggleLayer x /\
            enabledLayers (ui (step svc e st))
            = Leaflet.onToggleLayer (enabledLayers (ui st)) x.
Proof.
  destruct e as [p| |show|show|em|name captured|layerId]; simpl; auto.
  - left. unfold handleToggleEmirates.
    destruct show, (showAreas (ui st)); reflexivity.
  - left. unfold handleToggleAreas.
    destruct show, (showEmirates (ui st)); reflexivity.
  - left. unfold emirate_layer_click. destruct captured; reflexivity.
  - right. exists layerId. split; [reflexivity|].
    now destruct (loadGisLayers_selection svc (handleToggleLayer layerId st))
      as [-> _].
Qed.

(** X9. The list of enabled layers of the Google map never holds an id
    twice, whatever the user clicks; so removing an id on toggle removes the
    layer altogether. *)
Theorem enabled_layers_no_duplicates (svc : service) (m : GMap)
    (mode : string) (evs : list event) :
  List.NoDup (enabledLayers (ui (run svc evs (ready m mode)))).
Proof.
  assert (H0 : List.NoDup (enabledLayers (ui (ready m mode))))
    by constructor.
  revert H0. generalize (ready m mode).
  induction evs as [|e evs IH]; intros s Hs; [exact Hs|].
  simpl. apply IH.
  destruct (step_ui_layers svc e s) as [-> | (x & _ & ->)];
    [exact Hs | now apply onToggleLayer_NoDup].
Qed.

Lemma filter_absent (l : list string) x :
  ~ In x l -> filter (fun i => i <> x) l = l.
Proof.
  induction l as [|y l IH]; intros H; [reflexivity|].
  rewrite filter_cons. destruct (decide (y <> x)) as [Hy|Hy].
  - f_equal. apply IH. intros Hin. apply H. now right.
  - exfalso. apply H. left. destruct (decide (y = x)); [assumption|].
    contradiction.
Qed.

(** X10. Toggling a layer that is not enabled on and off again gives back
    the very list, order included, both for the Leaflet panel callback and
    for the Google map handler. *)
Theorem toggle_on_off_restores (st : State) (l : list string) (x : string) :
  ~ In x l ->
  ~ In x (enabledLayers (ui st)) ->
  Leaflet.onToggleLayer (Leaflet.onToggleLayer l x) x = l /\
  enabledLayers (ui (handleToggleLayer x (handleToggleLayer x st)))
  = enabledLayers (ui st).
Proof.
  assert (H : forall l', ~ In x l' ->
            Leaflet.onToggleLayer (Leaflet.onToggleLayer l' x) x = l').
  { intros l' Hn. unfold Leaflet.onToggleLayer at 2.
    apply LeafletProps.includes_not_In in Hn as Hi. rewrite Hi.
    unfold Leaflet.onToggleLayer.
    assert (Hin : includes (l' ++ [x]) x = true)
      by (apply LeafletProps.includes_In, in_app_iff; right; now left).
    rewrite Hin, filter_app, (filter_absent l' x Hn), filter_cons.
    destruct (decide (x <> x)); [contradiction|]. apply app_nil_r. }
  intros Hl Hst. split; [now apply H|].
  rewrite !handleToggleLayer_enabled. now apply H.
Qed.

Lemma toggle_on_off_restores_witness :
  Leaflet.onToggleLayer (Leaflet.onToggleLayer ["parcels"; "schools"] "zoning")
    "zoning"
  = ["parcels"; "schools"].
Proof.
  refine (proj1 (toggle_on_off_restores (ready Samples.viewport "properties")
                   ["parcels"; "schools"] "zoning" _ _)).
  - simpl. intuition discriminate.
  - simpl. tauto.
Defined.

(** *** What a pass requests *)

Lemma load_layer_requests svc en bb st t :
  gis_requests (refs (load_layer svc en bb st t))
  = gis_requests (refs st) ++ (if includes en t then [(t, bb)] else []).
Proof.
  unfold load_layer, drop_layer.
  destruct (gisLayersRef (refs st) !! t), (includes en t); simpl;
    rewrite ?app_nil_r; try reflexivity; destruct (svc t bb); reflexivity.
Qed.

Lemma pass_requests_exact svc en bb ts : forall st,
  gis_requests (refs (fold_left (load_layer svc en bb) ts st))
  = gis_requests (refs st)
    ++ map (fun t => (t, bb)) (List.filter (includes en) ts).
Proof.
  induction ts as [|t ts IH]; intros st; simpl; [now rewrite app_nil_r|].
  rewrite IH, load_layer_requests.
  destruct (includes en t); simpl; now rewrite <- app_assoc.
Qed.

(** X11. A pass of [loadGisLayers] requests exactly the enabled ones of the
    six layer types, once each and in the order parcels, zoning, schools,
    hospitals, metroStations, busStops, all with the bounding box read at
    the start of the pass (also when an earlier request of the pass was
    rejected); an enabled id that is none of the six is never requested, and
    without map bounds nothing is requested. *)
Theorem pass_requests_enabled_types (svc : service) (st : State) :
  match mapRef (refs st) ≫= getBounds with
  | Some vp =>
      gis_requests (refs (loadGisLayers svc st))
      = gis_requests (refs st)
        ++ map (fun t => (t, boundingBox_of vp))
             (List.filter (includes (enabledLayers (ui st))) layer_types)
  | None => loadGisLayers svc st = st
  end.
Proof.
  unfold loadGisLayers. destruct (mapRef (refs st)) as [m|]; [|reflexivity].
  change (Some m ≫= getBounds) with (getBounds m).
  destruct (getBounds m) as [vp|]; [|reflexivity].
  apply pass_requests_exact.
Qed.

(** *** Overlays after a pass *)



End GoogleMore.

(** ** Markers of the Google map *)

Module MarkerProps.

Import Google GoogleObs GoogleView.

(** *** Strict equality *)

Lemma Qeq_bool_sym p q : Qeq_bool p q = Qeq_bool q p.
Proof.
  destruct (Qeq_bool p q) eqn:H1, (Qeq_bool q p) eqn:H2; try reflexivity.
  - apply Qeq_bool_iff, Qeq_sym, Qeq_bool_iff in H1. congruence.
  - apply Qeq_bool_iff, Qeq_sym, Qeq_bool_iff in H2. congruence.
Qed.

Lemma strict_eq_sym a b : strict_eq a b = strict_eq b a.
Proof.
  destruct a, b; simpl; try reflexivity;
    [apply Qeq_bool_sym | apply String.eqb_sym].
Qed.

Lemma strict_eq_trans a b c :
  strict_eq a b = true -> strict_eq b c = true -> strict_eq a c = true.
Proof.
  destruct a, b, c; simpl; try discriminate; try reflexivity.
  - rewrite !Qeq_bool_iff. apply Qeq_trans.
  - rewrite !String.eqb_eq. congruence.
Qed.

(** Two values strictly equal to a third are strictly equal. *)
Lemma strict_eq_common a b c :
  strict_eq c a = true -> strict_eq c b = true -> strict_eq a b = true.
Proof.
  intros H1 H2. rewrite strict_eq_sym in H1.
  now apply (strict_eq_trans a c b).
Qed.

(** *** The highlighted marker *)

Lemma at_most_one_match {A : Type} (id_of : A -> value) (sel : value)
    (ps : list A) :
  distinct_ids id_of ps ->
  length (List.filter (fun p => strict_eq sel (id_of p)) ps) <= 1.
Proof.
  unfold distinct_ids. induction 1 as [|a l Hall Hrest IH]; [simpl; lia|].
  simpl. destruct (strict_eq sel (id_of a)) eqn:Ha; [|exact IH].
  assert (Hnone : List.filter (fun p => strict_eq sel (id_of p)) l = []).
  { apply LeafletMore.no_members_nil. intros q Hq.
    apply filter_In in Hq as [Hq Hs].
    rewrite List.Forall_forall in Hall. specialize (Hall q Hq).
    rewrite (strict_eq_common _ _ _ Ha Hs) in Hall. discriminate. }
  rewrite Hnone. simpl. lia.
Qed.

Lemma render_marker_selected pd p m :
  LeafletView.render_marker pd (Some p) = Some m ->
  LeafletView.mv_selected m = LeafletView.isSelected pd p.
Proof.
  unfold LeafletView.render_marker.
  destruct (negb _ || _ || _ || _); [discriminate|].
  destruct (Leaflet.get_lat (Some p)), (Leaflet.get_lng (Some p));
    try discriminate.
  now intros [= <-].
Qed.

Lemma selected_rendered pd ps :
  length (List.filter LeafletView.mv_selected
            (LeafletView.render_markers pd (map Some ps)))
  <= length (List.filter (LeafletView.isSelected pd) ps).
Proof.
  induction ps as [|p ps IH]; [simpl; lia|].
  cbn [map]. rewrite ViewProps.render_markers_cons.
  cbn [List.filter].
  destruct (LeafletView.render_marker pd (Some p)) as [m|] eqn:Hm.
  - cbn [List.filter]. rewrite (render_marker_selected pd p m Hm).
    destruct (LeafletView.isSelected pd p); simpl; lia.
  - destruct (LeafletView.isSelected pd p); simpl; lia.
Qed.

(** X13. Among properties whose ids are pairwise different under [===], at
    most one marker is drawn as selected: on the Google map at most one
    marker gets scale 10, which goes together with zIndex 1000, and it is
    the clicked one whenever that property's id equals itself; on the
    Leaflet map at most one rendered marker carries the selected style. *)
Theorem at_most_one_marker_highlighted (st : State) (ps : list Property)
    (pd : option Leaflet.Property) (lps : list Leaflet.Property)
    (p : Property) :
  distinct_ids id ps ->
  distinct_ids Leaflet.id lps ->
  length (List.filter (fun q => (marker_scale st q =? 10)%Z) ps) <= 1 /\
  (forall q, marker_scale st q = 10%Z <-> marker_zIndex st q = Some 1000%Z) /\
  (strict_eq (id p) (id p) = true ->
   marker_scale (marker_onClick p st) p = 10%Z) /\
  length (List.filter LeafletView.mv_selected
            (LeafletView.render_markers pd (map Some lps))) <= 1.
Proof.
  intros Hps Hlps. split; [|split; [|split]].
  - pose proof (at_most_one_match id (selectedPropertyId (ctx st)) ps Hps)
      as H.
    erewrite filter_ext; [exact H|].
    intros q. unfold marker_scale.
    now destruct (strict_eq (selectedPropertyId (ctx st)) (id q)).
  - intros q. unfold marker_scale, marker_zIndex.
    destruct (strict_eq (selectedPropertyId (ctx st)) (id q));
      split; congruence.
  - intros Hself. unfold marker_scale, marker_onClick. simpl.
    now rewrite Hself.
  - eapply Nat.le_trans; [apply selected_rendered|].
    destruct pd as [d|].
    + apply (at_most_one_match Leaflet.id (Leaflet.id d) lps Hlps).
    + clear Hlps. induction lps as [|a l IH]; simpl; [lia | exact IH].
Qed.

Lemma at_most_one_marker_highlighted_witness :
  length (List.filter
            (fun q => (marker_scale
                         (marker_onClick (Samples.listing 2)
                            (ready Samples.viewport "properties")) q
                       =? 10)%Z)
            [Samples.listing 1; Samples.listing 2; Samples.listing 3]) <= 1.
Proof.
  refine (proj1 (at_most_one_marker_highlighted
                   (marker_onClick (Samples.listing 2)
                      (ready Samples.viewport "properties"))
                   [Samples.listing 1; Samples.listing 2; Samples.listing 3]
                   None [] (Samples.listing 2) _ _)).
  - repeat constructor.
  - constructor.
Defined.

(** *** Cluster icons *)

(** X15. The cluster icon grows with the cluster: its scale is 18 below 10
    markers, 22 below 100 and 26 from 100 on, so a cluster with more markers
    never gets a smaller icon, and it is always drawn above a cluster with
    fewer markers. *)
Theorem cluster_icon_monotone (max_zindex : Z) (n m : nat) :
  n <= m ->
  (cluster_scale n <= cluster_scale m)%Z /\
  (n < m -> (cluster_zIndex max_zindex n < cluster_zIndex max_zindex m)%Z) /\
  (cluster_scale n = 18%Z <-> n < 10) /\
  (cluster_scale n = 26%Z <-> 100 <= n).
Proof.
  intros Hle. unfold cluster_scale, cluster_zIndex.
  destruct (Nat.ltb_spec n 10), (Nat.ltb_spec n 100),
    (Nat.ltb_spec m 10), (Nat.ltb_spec m 100);
    repeat split; intros; try lia; try discriminate.
Qed.

Lemma cluster_icon_monotone_witness :
  (cluster_scale 9 <= cluster_scale 120)%Z /\
  (cluster_scale 9 = 18%Z <-> 9 < 10).
Proof.
  destruct (cluster_icon_monotone 1000000 9 120) as (H1 & _ & H3 & _);
    [lia | exact (conj H1 H3)].
Defined.

End MarkerProps.

(** ** Emirates boundaries of the Google map *)

Module BoundaryProps.

Import Google GoogleView.


Lemma emirates_loop_rejected svc colors pre em post e : forall layers b,
  (forall x, In x pre -> exists g, svc x "emirate" = Resolved g) ->
  svc em "emirate" = Rejected e ->
  exists new,
    emirates_loop svc colors (pre ++ em :: post) layers b
    = ({| emirates_ref := emirates_ref b; drawn := drawn b ++ new;
          next_bl := next_bl b + length pre;
          region_requests := region_requests b
                             ++ map (fun x => (x, "emirate")) (pre ++ [em]);
          b_console := b_console b
                       ++ [("Error loading emirates boundaries:", e)] |},
       None) /\
    map bl_region new = pre.
Proof.
  induction pre as [|x pre IH]; intros layers b Hall Hrej.
  - exists []. cbn [app emirates_loop]. rewrite Hrej. simpl.
    rewrite app_nil_r, Nat.add_0_r. split; reflexivity.
  - destruct (Hall x (or_introl eq_refl)) as [g Hg].
    cbn [app emirates_loop]. rewrite Hg.
    cbn [next_bl drawn region_requests b_console emirates_ref].
    match goal with
    | |- context [emirates_loop _ _ (pre ++ em :: post) ?ls ?b0] =>
        destruct (IH ls b0) as (new & Heq & Hr);
          [intros y Hy; apply Hall; now right | exact Hrej |]
    end.
    rewrite Heq. cbn [next_bl drawn region_requests b_console emirates_ref].
    eexists (_ :: new). split.
    + f_equal. f_equal; rewrite <- ?app_assoc; simpl; try reflexivity. lia.
    + simpl. now rewrite Hr.
Qed.





(** X17. When the request for one emirate is rejected, the loop stops
    there: the emirates before it have been requested and drawn, the
    rejected one is requested, no later emirate is requested, the error is
    logged once, and the ref is not given the new layers (it keeps what the
    clean-up left). *)
Theorem emirates_load_stops_at_rejection (svc : region_service)
    (colors : gmap string string) (b : Boundaries)
    (pre post : list string) (em : string) (e : error) :
  emirates = pre ++ em :: post ->
  (forall x, In x pre -> exists g, svc x "emirate" = Resolved g) ->
  svc em "emirate" = Rejected e ->
  let b0 := cleanup_emirates b in
  let b' := loadEmiratesBoundaries svc colors b in
  region_requests b'
  = region_requests b ++ map (fun x => (x, "emirate")) (pre ++ [em]) /\
  b_console b' = b_console b ++ [("Error loading emirates boundaries:", e)] /\
  emirates_ref b' = emirates_ref b0 /\
  exists new, drawn b' = drawn b0 ++ new /\ map bl_region new = pre.
Proof.
  intros Hsplit Hall Hrej b0 b'. subst b0 b'. unfold loadEmiratesBoundaries.
  rewrite Hsplit.
  destruct (emirates_loop_rejected svc colors pre em post e []
              (cleanup_emirates b) Hall Hrej) as (new & Heq & Hr).
  rewrite Heq. cbn [emirates_ref drawn next_bl region_requests b_console].
  assert (Hq : region_requests (cleanup_emirates b) = region_requests b /\
               b_console (cleanup_emirates b) = b_console b)
    by (unfold cleanup_emirates; destruct (emirates_ref b); split; reflexivity).
  destruct Hq as [-> ->]. repeat split. now exists new.
Qed.

Lemma emirates_load_stops_at_rejection_witness :
  let b' := loadEmiratesBoundaries Samples.regions_sharjah_down ∅
              {| emirates_ref := None; drawn := []; next_bl := 0;
                 region_requests := []; b_console := [] |} in
  region_requests b'
  = [("Dubai", "emirate"); ("Abu Dhabi", "emirate"); ("Sharjah", "emirate")] /\
  b_console b' = [("Error loading emirates boundaries:", Samples.timeout)].
Proof.
  intros b'.
  destruct (emirates_load_stops_at_rejection Samples.regions_sharjah_down ∅
              {| emirates_ref := None; drawn := []; next_bl := 0;
                 region_requests := []; b_console := [] |}
              ["Dubai"; "Abu Dhabi"]
              ["Ajman"; "Ras Al Khaimah"; "Fujairah"; "Umm Al Quwain"]
              "Sharjah" Samples.timeout) as (H1 & H2 & _).
  - reflexivity.
  - intros x [<-|[<-|[]]]; now exists 1.
  - reflexivity.
  - exact (conj H1 H2).
Defined.

End BoundaryProps.

(** ** Requests that are sent *)

Module RequestProps.

Import Leaflet LeafletObs LeafletProps.








End RequestProps.

Section Requests.

Import Leaflet.



End Requests.
